(** * Travel reimbursement engine: [improved_reimbursement.py]

    A shallow embedding of [calculate_reimbursement] and the properties the
    specification states about it, followed by the baseline engine of
    [calculate_reimbursement.py], the formulas of [show_improvement.py] and
    [final_analysis.py], the error analysis of [final_analysis.py] and the
    comparison loop of [test_improvements.py].

    Number model.  Python [int] values are [Z].  Python [float] values have
    two models.

    In the exact model a float is a rational [Q] and every arithmetic
    operation of the source is the exact operation on rationals; decimal
    literals ([0.42], [0.15], ...) are the rationals they denote and equality
    of floats is [Qeq] ([==]).  The properties about the shape of the
    formulas (rates, bounds, monotonicity, the floor) are stated on it.

    In the binary64 model, [Module F64], a float is not-a-number, an
    infinity or a finite value, every arithmetic operation rounds its exact
    result to nearest with ties to even, overflows to an infinity, and
    [int] raises on an infinity and on not-a-number.  The properties about
    what the engine returns or raises and about the cent value of the
    receipts are stated on it. *)

From Stdlib Require Import ZArith QArith Qround Qabs Qpower Lia Lqa Bool List.
From Stdlib Require Import Sorted Permutation.
Import ListNotations.

Open Scope Q_scope.

(** ** The pieces of the Python runtime the engine uses *)

Module Py.

(** Exceptions the arithmetic of the engine can raise. *)
Inductive exn : Set :=
| ZeroDivisionError.

Inductive result (A : Type) : Type :=
| Ok (a : A)
| Raise (e : exn).
Arguments Ok {A} a.
Arguments Raise {A} e.

Definition bind {A B : Type} (m : result A) (k : A -> result B) : result B :=
  match m with
  | Ok a => k a
  | Raise e => Raise e
  end.

(** [x < y] and [x <= y] on floats. *)
Definition ltb (x y : Q) : bool := negb (Qle_bool y x).
Definition leb (x y : Q) : bool := Qle_bool x y.

(** [x / y] on floats: raises on a zero divisor. *)
Definition truediv (x y : Q) : result Q :=
  if Qeq_bool y 0 then Raise ZeroDivisionError else Ok (x / y).

(** [x % y] on floats: the result takes the sign of the divisor, that is
    [x - y * floor (x / y)]; raises on a zero divisor. *)
Definition mod_ (x y : Q) : result Q :=
  if Qeq_bool y 0 then Raise ZeroDivisionError
  else Ok (x - y * inject_Z (Qfloor (x / y))).

(** [int(x)] on a float: truncation toward zero. *)
Definition int (x : Q) : Z :=
  if Qle_bool 0 x then Qfloor x else Qceiling x.

(** Rounding of a rational to the nearest integer, ties to even. *)
Definition round_half_even (x : Q) : Z :=
  let f := Qfloor x in
  let frac := x - inject_Z f in
  if ltb frac (1 # 2) then f
  else if ltb (1 # 2) frac then (f + 1)%Z
  else if Z.even f then f else (f + 1)%Z.

(** [round(x, 2)]: the nearest multiple of [0.01], ties to even. *)
Definition round2 (x : Q) : Q :=
  round_half_even (x * 100) # 100.

(** [dict.get(key, default)] on a dict with integer keys, as an
    association list in the order of the literal. *)
Fixpoint dict_get {V : Type} (dict : list (Z * V)) (key : Z) (default : V) : V :=
  match dict with
  | [] => default
  | (k, v) :: rest => if (k =? key)%Z then v else dict_get rest key default
  end.

End Py.

Notation "x <- m ;; k" := (Py.bind m (fun x => k))
  (at level 61, m at next level, right associativity).

Import Py.

(** ** The engine, stage by stage *)

(** Base accrual and mileage tiers (source lines 26-37). *)
Definition base_reimbursement (trip_duration_days : Z) (miles_traveled : Q) : Q :=
  let base_reimbursement := inject_Z (trip_duration_days * 115) + miles_traveled * 0.42 in
  if ltb 800 miles_traveled then
    let excess_miles := miles_traveled - 800 in
    base_reimbursement - excess_miles * 0.15
  else if ltb 400 miles_traveled then
    let excess_miles := miles_traveled - 400 in
    base_reimbursement - excess_miles * 0.05
  else base_reimbursement.

(** The [multipliers] dict (source lines 41-45). *)
Definition multipliers : list (Z * Q) :=
  [ (1%Z, 0.520); (2%Z, 0.500); (3%Z, 0.380); (4%Z, 0.410); (5%Z, 0.395);
    (6%Z, 0.385); (7%Z, 0.330); (8%Z, 0.225); (9%Z, 0.150); (10%Z, 0.105);
    (11%Z, 0.090); (12%Z, 0.040); (13%Z, -0.005); (14%Z, -0.055) ].

Definition receipt_multiplier (trip_duration_days : Z) : Q :=
  dict_get multipliers trip_duration_days (-0.08).

(** Receipt tiers for a given multiplier (source lines 50-61). *)
Definition receipt_tiers (receipt_multiplier total_receipts_amount : Q) : Q :=
  if ltb 2000 total_receipts_amount then
    let capped_receipts := 2000 + (total_receipts_amount - 2000) * 0.2 in
    capped_receipts * receipt_multiplier
  else if ltb 1000 total_receipts_amount then
    let base_receipts := 1000 * receipt_multiplier in
    let excess_receipts := (total_receipts_amount - 1000) * receipt_multiplier * 0.6 in
    base_receipts + excess_receipts
  else total_receipts_amount * receipt_multiplier.

Definition receipt_contribution (trip_duration_days : Z) (total_receipts_amount : Q) : Q :=
  receipt_tiers (receipt_multiplier trip_duration_days) total_receipts_amount.

(** Efficiency bonus (source lines 66-71): the value of [efficiency_bonus]
    before the five-day bonus is added to it. *)
Definition efficiency_bonus (trip_duration_days : Z) (miles_traveled : Q) : result Z :=
  if (0 <? trip_duration_days)%Z then
    miles_per_day <- truediv miles_traveled (inject_Z trip_duration_days) ;;
    if leb 200 miles_per_day && leb miles_per_day 300
    then Ok (Z.min (trip_duration_days * 8) 40)
    else Ok 0%Z
  else Ok 0%Z.

(** Five-day bonus (source lines 74-75), added onto [efficiency_bonus]. *)
Definition five_day_bonus (trip_duration_days : Z) (efficiency_bonus : Z) : Z :=
  if (trip_duration_days =? 5)%Z then (efficiency_bonus + 20)%Z else efficiency_bonus.

(** The hash of the quarter adjustment (source line 81). *)
Definition trip_hash (trip_duration_days : Z) (miles_traveled total_receipts_amount : Q) : Z :=
  ((trip_duration_days * 17 + int (miles_traveled * 13)
    + int (total_receipts_amount * 7)) mod 100)%Z.

(** Quarter adjustment (source lines 78-83). *)
Definition quarter_adjustment (trip_duration_days : Z)
    (miles_traveled total_receipts_amount : Q) : Z :=
  if (3 <=? trip_duration_days)%Z then
    if (trip_hash trip_duration_days miles_traveled total_receipts_amount <? 15)%Z
    then (trip_duration_days * 5)%Z
    else 0%Z
  else 0%Z.

(** The cent value of the receipts (source line 87). *)
Definition cents (total_receipts_amount : Q) : result Z :=
  m <- mod_ (total_receipts_amount * 100) 100 ;;
  Ok (int m).

(** Rounding bonus (source lines 87-92). *)
Definition rounding_bonus (total_receipts_amount : Q) : result Z :=
  cents <- cents total_receipts_amount ;;
  if (cents =? 49)%Z then Ok 8%Z
  else if (cents =? 99)%Z then Ok 12%Z
  else Ok 0%Z.

(** The running total before the floor (source lines 95-99). *)
Definition total_reimbursement (trip_duration_days : Z)
    (miles_traveled total_receipts_amount : Q) : result Q :=
  let base_reimbursement := base_reimbursement trip_duration_days miles_traveled in
  let receipt_contribution := receipt_contribution trip_duration_days total_receipts_amount in
  efficiency_bonus <- efficiency_bonus trip_duration_days miles_traveled ;;
  let efficiency_bonus := five_day_bonus trip_duration_days efficiency_bonus in
  let quarter_adjustment :=
    quarter_adjustment trip_duration_days miles_traveled total_receipts_amount in
  rounding_bonus <- rounding_bonus total_receipts_amount ;;
  Ok (base_reimbursement + receipt_contribution + inject_Z efficiency_bonus
      + inject_Z quarter_adjustment + inject_Z rounding_bonus).

(** The floor of the payout (source line 102). *)
Definition min_reimbursement (trip_duration_days : Z) : Z :=
  (trip_duration_days * 85)%Z.

(** The floor clamp (source lines 103-104). *)
Definition floor_clamp (trip_duration_days : Z) (total_reimbursement : Q) : Q :=
  if ltb total_reimbursement (inject_Z (min_reimbursement trip_duration_days))
  then inject_Z (min_reimbursement trip_duration_days)
  else total_reimbursement.

(** [calculate_reimbursement] (source lines 17-107). *)
Definition calculate_reimbursement (trip_duration_days : Z)
    (miles_traveled total_receipts_amount : Q) : result Q :=
  total_reimbursement <-
    total_reimbursement trip_duration_days miles_traveled total_receipts_amount ;;
  Ok (round2 (floor_clamp trip_duration_days total_reimbursement)).

(** The hash of the quarter adjustment as the specification words it: with
    floors where the source has [int]. *)
Definition trip_hash_floor (d : Z) (m r : Q) : Z :=
  ((d * 17 + Qfloor (m * 13) + Qfloor (r * 7)) mod 100)%Z.

(** ** The engine in binary64 arithmetic *)

Module F64.

(** Exceptions the engine can raise. *)
Inductive exn : Set :=
| ZeroDivisionError
| OverflowError
| ValueError.

Inductive result (A : Type) : Type :=
| Ok (a : A)
| Raise (e : exn).
Arguments Ok {A} a.
Arguments Raise {A} e.

Definition bind {A B : Type} (m : result A) (k : A -> result B) : result B :=
  match m with
  | Ok a => k a
  | Raise e => Raise e
  end.

(** A Python [float]: not-a-number, an infinity, or a finite value.  The
    finite values the operations produce are the rationals [m * 2 ^ e] with
    [m < 2 ^ 53] and [-1074 <= e <= 971], kept in lowest terms.  Zero carries
    no sign: [-0.0] and [0.0] are equal in every test of the engine. *)
Inductive float : Set :=
| NaN
| Inf (negative : bool)
| Fin (q : Q).

(** [floor (log2 a)] for [2 ^ -1100 <= a]; below that, [-1100]. *)
Definition ilog2 (a : Q) : Z :=
  (Z.log2 (Qfloor (a * 2 ^ 1100)) - 1100)%Z.

(** Rounding of an exact result to binary64: to nearest, ties to even, 53
    bits of precision, gradual underflow, infinity from [2 ^ 1024] on. *)
Definition rnd (q : Q) : float :=
  let a := Qabs q in
  let e := Z.max (ilog2 a - 52) (-1074) in
  let m := Py.round_half_even (a / 2 ^ e) in
  let v := Qred (inject_Z m * 2 ^ e) in
  if Qle_bool (2 ^ 1024) v then Inf (Py.ltb q 0)
  else Fin (if Py.ltb q 0 then - v else v).

(** A decimal literal of the source, and an [int] operand of a float
    operation (which raises when it is too large). *)
Definition lit (q : Q) : float := rnd q.

Definition float_of_int (n : Z) : result float :=
  match rnd (inject_Z n) with
  | Inf _ => Raise OverflowError
  | x => Ok x
  end.

Definition is_zero (x : float) : bool :=
  match x with
  | Fin q => Qeq_bool q 0
  | _ => false
  end.

Definition neg (x : float) : float :=
  match x with
  | NaN => NaN
  | Inf s => Inf (negb s)
  | Fin q => Fin (- q)
  end.

Definition add (x y : float) : float :=
  match x, y with
  | NaN, _ | _, NaN => NaN
  | Inf s, Inf s' => if Bool.eqb s s' then Inf s else NaN
  | Inf s, Fin _ | Fin _, Inf s => Inf s
  | Fin a, Fin b => rnd (a + b)
  end.

Definition sub (x y : float) : float := add x (neg y).

Definition mul (x y : float) : float :=
  match x, y with
  | NaN, _ | _, NaN => NaN
  | Inf s, Inf s' => Inf (xorb s s')
  | Inf s, Fin b | Fin b, Inf s =>
      if Qeq_bool b 0 then NaN else Inf (xorb s (Py.ltb b 0))
  | Fin a, Fin b => rnd (a * b)
  end.

(** [x / y]: raises on a zero divisor. *)
Definition truediv (x y : float) : result float :=
  if is_zero y then Raise ZeroDivisionError
  else Ok match x, y with
          | NaN, _ | _, NaN => NaN
          | Inf _, Inf _ => NaN
          | Inf s, Fin b => Inf (xorb s (Py.ltb b 0))
          | Fin _, Inf _ => Fin 0
          | Fin a, Fin b => rnd (a / b)
          end.

(** [x < y] and [x <= y]: false when an operand is not a number.  A
    comparison with an [int] is exact; the [int] is then written [Fin]. *)
Definition ltb (x y : float) : bool :=
  match x, y with
  | NaN, _ | _, NaN => false
  | Inf s, Inf s' => s && negb s'
  | Inf s, Fin _ => s
  | Fin _, Inf s => negb s
  | Fin a, Fin b => Py.ltb a b
  end.

Definition leb (x y : float) : bool :=
  match x, y with
  | NaN, _ | _, NaN => false
  | Inf s, Inf s' => s || negb s'
  | Inf s, Fin _ => s
  | Fin _, Inf s => negb s
  | Fin a, Fin b => Py.leb a b
  end.

(** [x % y]: the C [fmod], which is exact and has the sign of [x], moved by
    [y] when its sign differs from the sign of [y]; that addition rounds.
    Raises on a zero divisor. *)
Definition float_rem (vx wx : float) : result float :=
  if is_zero wx then Raise ZeroDivisionError
  else Ok match vx, wx with
          | NaN, _ | _, NaN => NaN
          | Inf _, _ => NaN
          | Fin v, Inf s =>
              if Qeq_bool v 0 then Fin 0
              else if Bool.eqb s (Py.ltb v 0) then Fin v else Inf s
          | Fin v, Fin w =>
              let fmod := Qred (v - w * inject_Z (Py.int (v / w))) in
              if Qeq_bool fmod 0 then Fin 0
              else if Bool.eqb (Py.ltb w 0) (Py.ltb fmod 0) then Fin fmod
              else add (Fin fmod) (Fin w)
          end.

(** [int(x)]: truncation toward zero; raises on an infinity and on
    not-a-number. *)
Definition int (x : float) : result Z :=
  match x with
  | NaN => Raise ValueError
  | Inf _ => Raise OverflowError
  | Fin q => Ok (Py.int q)
  end.

(** [round(x, 2)] on a float: the binary64 value nearest to the exact value
    of [x] rounded half-even to two decimals; an infinity and not-a-number
    are returned as they are. *)
Definition round2 (x : float) : result float :=
  match x with
  | Fin q =>
      match rnd (inject_Z (Py.round_half_even (q * 100)) / 100) with
      | Inf _ => Raise OverflowError
      | y => Ok y
      end
  | _ => Ok x
  end.

(** A Python number: the engine returns the [int] floor when the clamp
    applies and a [float] otherwise. *)
Inductive num : Set :=
| Int (n : Z)
| Float (x : float).

(** The [multipliers] dict (source lines 41-45). *)
Definition multipliers : list (Z * float) :=
  [ (1%Z, lit 0.520); (2%Z, lit 0.500); (3%Z, lit 0.380); (4%Z, lit 0.410);
    (5%Z, lit 0.395); (6%Z, lit 0.385); (7%Z, lit 0.330); (8%Z, lit 0.225);
    (9%Z, lit 0.150); (10%Z, lit 0.105); (11%Z, lit 0.090); (12%Z, lit 0.040);
    (13%Z, lit (-0.005)); (14%Z, lit (-0.055)) ].

(** Base accrual and mileage tiers (source lines 26-37). *)
Definition base_reimbursement (trip_duration_days : Z) (miles_traveled : float)
    : result float :=
  bind (float_of_int (trip_duration_days * 115)) (fun days_part =>
  let base_reimbursement := add days_part (mul miles_traveled (lit 0.42)) in
  if ltb (lit 800) miles_traveled then
    let excess_miles := sub miles_traveled (lit 800) in
    Ok (sub base_reimbursement (mul excess_miles (lit 0.15)))
  else if ltb (lit 400) miles_traveled then
    let excess_miles := sub miles_traveled (lit 400) in
    Ok (sub base_reimbursement (mul excess_miles (lit 0.05)))
  else Ok base_reimbursement).

(** Receipt contribution (source lines 47-61). *)
Definition receipt_contribution (trip_duration_days : Z)
    (total_receipts_amount : float) : float :=
  let receipt_multiplier :=
    Py.dict_get multipliers trip_duration_days (lit (-0.08)) in
  if ltb (lit 2000) total_receipts_amount then
    let capped_receipts :=
      add (lit 2000) (mul (sub total_receipts_amount (lit 2000)) (lit 0.2)) in
    mul capped_receipts receipt_multiplier
  else if ltb (lit 1000) total_receipts_amount then
    let base_receipts := mul (lit 1000) receipt_multiplier in
    let excess_receipts :=
      mul (mul (sub total_receipts_amount (lit 1000)) receipt_multiplier)
        (lit 0.6) in
    add base_receipts excess_receipts
  else mul total_receipts_amount receipt_multiplier.

(** Efficiency bonus with the five-day bonus (source lines 66-75). *)
Definition efficiency_bonus (trip_duration_days : Z) (miles_traveled : float)
    : result Z :=
  bind
    (if (0 <? trip_duration_days)%Z then
       bind (float_of_int trip_duration_days) (fun days =>
       bind (truediv miles_traveled days) (fun miles_per_day =>
       if leb (lit 200) miles_per_day && leb miles_per_day (lit 300)
       then Ok (Z.min (trip_duration_days * 8) 40)
       else Ok 0%Z))
     else Ok 0%Z)
    (fun efficiency_bonus =>
       if (trip_duration_days =? 5)%Z then Ok (efficiency_bonus + 20)%Z
       else Ok efficiency_bonus).

(** Quarter adjustment (source lines 78-83). *)
Definition quarter_adjustment (trip_duration_days : Z)
    (miles_traveled total_receipts_amount : float) : result Z :=
  if (3 <=? trip_duration_days)%Z then
    bind (int (mul miles_traveled (lit 13))) (fun miles_part =>
    bind (int (mul total_receipts_amount (lit 7))) (fun receipts_part =>
    let trip_hash :=
      ((trip_duration_days * 17 + miles_part + receipts_part) mod 100)%Z in
    if (trip_hash <? 15)%Z then Ok (trip_duration_days * 5)%Z else Ok 0%Z))
  else Ok 0%Z.

(** The cent value of the receipts (source line 87). *)
Definition cents (total_receipts_amount : float) : result Z :=
  bind (float_rem (mul total_receipts_amount (lit 100)) (lit 100)) int.

(** Rounding bonus (source lines 87-92). *)
Definition rounding_bonus (total_receipts_amount : float) : result Z :=
  bind (cents total_receipts_amount) (fun cents =>
  if (cents =? 49)%Z then Ok 8%Z
  else if (cents =? 99)%Z then Ok 12%Z
  else Ok 0%Z).

(** The running total before the floor (source lines 95-99): the three
    bonuses are [int] operands of the float additions. *)
Definition total_reimbursement (trip_duration_days : Z)
    (miles_traveled total_receipts_amount : float) : result float :=
  bind (base_reimbursement trip_duration_days miles_traveled)
    (fun base_reimbursement =>
  let receipt_contribution :=
    receipt_contribution trip_duration_days total_receipts_amount in
  bind (efficiency_bonus trip_duration_days miles_traveled)
    (fun efficiency_bonus =>
  bind (quarter_adjustment trip_duration_days miles_traveled
          total_receipts_amount) (fun quarter_adjustment =>
  bind (rounding_bonus total_receipts_amount) (fun rounding_bonus =>
  bind (float_of_int efficiency_bonus) (fun efficiency_part =>
  bind (float_of_int quarter_adjustment) (fun quarter_part =>
  bind (float_of_int rounding_bonus) (fun rounding_part =>
  Ok (add (add (add (add base_reimbursement receipt_contribution)
                  efficiency_part) quarter_part) rounding_part)))))))).

(** [calculate_reimbursement] (source lines 17-107). *)
Definition calculate_reimbursement (trip_duration_days : Z)
    (miles_traveled total_receipts_amount : float) : result num :=
  bind (total_reimbursement trip_duration_days miles_traveled
          total_receipts_amount) (fun total_reimbursement =>
  let min_reimbursement := (trip_duration_days * 85)%Z in
  if ltb total_reimbursement (Fin (inject_Z min_reimbursement))
  then Ok (Int min_reimbursement)
  else bind (round2 total_reimbursement) (fun rounded => Ok (Float rounded))).

(** A finite float of magnitude at most [2 ^ k]. *)
Definition fin_le (k : Z) (x : float) : Prop :=
  exists q : Q, x = Fin q /\ Qabs q <= 2 ^ k.

(** A finite float that is not negative. *)
Definition fin_nonneg (x : float) : Prop :=
  exists q : Q, x = Fin q /\ 0 <= q.

End F64.

(** ** The baseline engine: [calculate_reimbursement.py] *)

Module Baseline.

(** Base accrual and the reduction for extreme daily mileage (source lines
    13-19). *)
Definition base_reimbursement (trip_duration_days : Z) (miles_traveled : Q) : result Q :=
  let base_reimbursement := inject_Z (trip_duration_days * 120) + miles_traveled * 0.4 in
  miles_per_day <-
    (if (0 <? trip_duration_days)%Z
     then truediv miles_traveled (inject_Z trip_duration_days)
     else Ok miles_traveled) ;;
  if ltb 600 miles_per_day then
    let excess_miles := miles_traveled - inject_Z (600 * trip_duration_days) in
    Ok (base_reimbursement - excess_miles * 0.2)
  else Ok base_reimbursement.

(** The [multipliers] dict (source lines 22-26). *)
Definition multipliers : list (Z * Q) :=
  [ (1%Z, 0.518); (2%Z, 0.496); (3%Z, 0.375); (4%Z, 0.403); (5%Z, 0.391);
    (6%Z, 0.382); (7%Z, 0.324); (8%Z, 0.222); (9%Z, 0.149); (10%Z, 0.101);
    (11%Z, 0.088); (12%Z, 0.039); (13%Z, -0.007); (14%Z, -0.060) ].

Definition receipt_multiplier (trip_duration_days : Z) : Q :=
  dict_get multipliers trip_duration_days (-0.1).

(** The cap on the receipts (source lines 31-35). *)
Definition capped_receipts (total_receipts_amount : Q) : Q :=
  if ltb 1500 total_receipts_amount then
    let excess := total_receipts_amount - 1500 in
    1500 + excess * 0.3
  else total_receipts_amount.

Definition receipt_contribution (trip_duration_days : Z) (total_receipts_amount : Q) : Q :=
  capped_receipts total_receipts_amount * receipt_multiplier trip_duration_days.

(** The adjustment for long trips with low receipts (source lines 42-44). *)
Definition long_trip_adjustment (trip_duration_days : Z)
    (total_receipts_amount total_reimbursement : Q) : Q :=
  if (13 <=? trip_duration_days)%Z && ltb total_receipts_amount 500
  then total_reimbursement * 0.85
  else total_reimbursement.

(** [calculate_reimbursement] of the baseline (source lines 5-47). *)
Definition calculate_reimbursement (trip_duration_days : Z)
    (miles_traveled total_receipts_amount : Q) : result Q :=
  base_reimbursement <- base_reimbursement trip_duration_days miles_traveled ;;
  let receipt_contribution := receipt_contribution trip_duration_days total_receipts_amount in
  let total_reimbursement := base_reimbursement + receipt_contribution in
  let total_reimbursement :=
    long_trip_adjustment trip_duration_days total_receipts_amount total_reimbursement in
  Ok (round2 total_reimbursement).

End Baseline.

(** ** The library calls of the scripts *)

Module PyLib.

(** Exceptions the scripts can raise from the library. *)
Inductive exn : Set :=
| StatisticsError
| ValueError.

(** [statistics.mean]: raises on an empty list. *)
Definition mean (data : list Q) : exn + Q :=
  match data with
  | [] => inl StatisticsError
  | _ => inr (fold_left Qplus data 0 / inject_Z (Z.of_nat (length data)))
  end.

(** [max] of a list: raises on an empty list, keeps the first of equal
    maxima. *)
Definition max (data : list Q) : exn + Q :=
  match data with
  | [] => inl ValueError
  | x :: rest => inr (fold_left (fun maxval item => if ltb maxval item then item else maxval) rest x)
  end.

(** [list.sort(key=key, reverse=True)]: descending and stable, as an
    insertion sort that puts an item before the later items of equal key. *)
Fixpoint insert_desc {A : Type} (key : A -> Q) (x : A) (l : list A) : list A :=
  match l with
  | [] => [x]
  | y :: rest =>
      if ltb (key x) (key y) then y :: insert_desc key x rest else x :: l
  end.

Definition sort_desc {A : Type} (key : A -> Q) (l : list A) : list A :=
  fold_right (insert_desc key) [] l.

End PyLib.

(** A record of the corpus [public_cases.json]. *)
Record test_case : Type := {
  trip_duration_days : Z;
  miles_traveled : Q;
  total_receipts_amount : Q;
  expected_output : Q
}.

(** ** The formulas of the analysis scripts *)

(** [show_improvement.py], source lines 10-38. *)
Module ShowImprovement.

Definition simple_formula (days : Z) (miles receipts : Q) : Q :=
  inject_Z (days * 120) + miles * 0.4.

Definition avg_multipliers : list (Z * Q) :=
  [ (1%Z, 0.38); (2%Z, 0.25); (3%Z, 0.15); (4%Z, 0.12); (5%Z, 0.10) ].

Definition with_average_multipliers (days : Z) (miles receipts : Q) : Q :=
  let base := inject_Z (days * 120) + miles * 0.4 in
  let multiplier := dict_get avg_multipliers days 0.1 in
  base + multiplier * receipts.

Definition median_multipliers : list (Z * Q) :=
  [ (1%Z, 0.518); (2%Z, 0.496); (3%Z, 0.375); (4%Z, 0.403); (5%Z, 0.391);
    (6%Z, 0.382); (7%Z, 0.324); (8%Z, 0.222); (9%Z, 0.149); (10%Z, 0.101);
    (11%Z, 0.088); (12%Z, 0.039); (13%Z, -0.007); (14%Z, -0.060) ].

Definition with_median_multipliers (days : Z) (miles receipts : Q) : Q :=
  let base := inject_Z (days * 120) + miles * 0.4 in
  let multiplier := dict_get median_multipliers days (-0.1) in
  base + multiplier * receipts.

End ShowImprovement.

(** [final_analysis.py], source lines 12-26. *)
Module FinalAnalysis.

Definition multipliers : list (Z * Q) :=
  [ (1%Z, 0.518); (2%Z, 0.496); (3%Z, 0.375); (4%Z, 0.403); (5%Z, 0.391);
    (6%Z, 0.382); (7%Z, 0.324); (8%Z, 0.222); (9%Z, 0.149); (10%Z, 0.101);
    (11%Z, 0.088); (12%Z, 0.039); (13%Z, -0.007); (14%Z, -0.060) ].

Definition current_formula (trip_duration_days : Z)
    (miles_traveled total_receipts_amount : Q) : Q :=
  let base_reimbursement := inject_Z (trip_duration_days * 120) + miles_traveled * 0.4 in
  let receipt_multiplier := dict_get multipliers trip_duration_days (-0.1) in
  let receipt_contribution := total_receipts_amount * receipt_multiplier in
  base_reimbursement + receipt_contribution.

(** An entry of [large_errors] (source lines 46-54). *)
Record large_error : Type := {
  case_num : Z;
  days : Z;
  miles : Q;
  receipts : Q;
  expected : Q;
  predicted : Q;
  error : Q
}.

(** The loop of [analyze_current_errors] (source lines 32-54): the lists
    [errors] and [large_errors] after the cases from index [i] on. *)
Fixpoint error_loop (i : Z) (data : list test_case)
    (errors : list Q) (large_errors : list large_error)
    : list Q * list large_error :=
  match data with
  | [] => (errors, large_errors)
  | case :: rest =>
      let days := trip_duration_days case in
      let miles := miles_traveled case in
      let receipts := total_receipts_amount case in
      let expected := expected_output case in
      let predicted := current_formula days miles receipts in
      let error := Qabs (predicted - expected) in
      let errors := errors ++ [error] in
      let large_errors :=
        if ltb 200 error
        then large_errors ++
             [ {| case_num := i; days := days; miles := miles;
                  receipts := receipts; expected := expected;
                  predicted := predicted; error := error |} ]
        else large_errors in
      error_loop (i + 1) rest errors large_errors
  end.

(** [analyze_current_errors] (source lines 28-67): the returned list, or the
    exception of [statistics.mean]; the printing is left out. *)
Definition analyze_current_errors (data : list test_case)
    : PyLib.exn + list large_error :=
  let '(errors, large_errors) := error_loop 0 data [] [] in
  match PyLib.mean errors with
  | inl e => inl e
  | inr _ => inr (PyLib.sort_desc error large_errors)
  end.

(** What holds of every entry of [large_errors] when the corpus has [n]
    cases. *)
Definition large_error_ok (n : Z) (e : large_error) : Prop :=
  (0 <= case_num e < n)%Z
  /\ predicted e = current_formula (days e) (miles e) (receipts e)
  /\ error e = Qabs (predicted e - expected e)
  /\ 200 < error e.

(** The test of line 45 on a case of the corpus. *)
Definition is_large (c : test_case) : bool :=
  ltb 200 (Qabs (current_formula (trip_duration_days c) (miles_traveled c)
                   (total_receipts_amount c) - expected_output c)).

(** An entry of [large_errors] that records the case of the corpus at the
    index [case_num]: its inputs, its expected output, the prediction of
    [current_formula] and the absolute error, which exceeds 200. *)
Definition large_error_of (data : list test_case) (e : large_error) : Prop :=
  exists c : test_case,
    (0 <= case_num e)%Z
    /\ nth_error data (Z.to_nat (case_num e)) = Some c
    /\ days e = trip_duration_days c
    /\ miles e = miles_traveled c
    /\ receipts e = total_receipts_amount c
    /\ expected e = expected_output c
    /\ predicted e = current_formula (days e) (miles e) (receipts e)
    /\ error e = Qabs (predicted e - expected e)
    /\ 200 < error e.

End FinalAnalysis.

(** ** The comparison harness: [test_improvements.py] *)

Module TestImprovements.

Section Harness.

(** The two engines run as subprocesses: [None] when the exit status is not
    zero (source lines 11-25).  [Str] is the type of the formatted [input]
    field. *)
Variable Str : Type.
Variable format_input : Z -> Q -> Q -> Str.
Variable test_original_solution : Z -> Q -> Q -> option Q.
Variable test_improved_solution : Z -> Q -> Q -> option Q.

(** An entry of [sample_comparisons] (source lines 68-77). *)
Record comparison : Type := {
  case : Z;
  input : Str;
  expected : Q;
  original : Q;
  improved : Q;
  original_error : Q;
  improved_error : Q;
  change : Q
}.

(** The variables the loop updates (source lines 33-38). *)
Record state : Type := {
  original_errors : list Q;
  improved_errors : list Q;
  improvements : Z;
  degradations : Z;
  sample_comparisons : list comparison
}.

Definition init : state :=
  {| original_errors := []; improved_errors := []; improvements := 0;
     degradations := 0; sample_comparisons := [] |}.

(** One iteration of the loop (source lines 40-77). *)
Definition body (i : Z) (c : test_case) (st : state) : state :=
  let days := trip_duration_days c in
  let miles := miles_traveled c in
  let receipts := total_receipts_amount c in
  let expected := expected_output c in
  match test_original_solution days miles receipts,
        test_improved_solution days miles receipts with
  | Some original_result, Some improved_result =>
      let original_error := Qabs (original_result - expected) in
      let improved_error := Qabs (improved_result - expected) in
      {| original_errors := original_errors st ++ [original_error];
         improved_errors := improved_errors st ++ [improved_error];
         improvements :=
           if ltb improved_error original_error
           then (improvements st + 1)%Z else improvements st;
         degradations :=
           if ltb improved_error original_error then degradations st
           else if ltb original_error improved_error
                then (degradations st + 1)%Z else degradations st;
         sample_comparisons :=
           if (Z.of_nat (length (sample_comparisons st)) <? 10)%Z
              && ltb 5 (Qabs (improved_error - original_error))
           then sample_comparisons st ++
                [ {| case := i;
                     input := format_input days miles receipts;
                     expected := expected;
                     original := original_result;
                     improved := improved_result;
                     original_error := original_error;
                     improved_error := improved_error;
                     change := improved_error - original_error |} ]
           else sample_comparisons st |}
  | _, _ => st
  end.

Fixpoint loop (i : Z) (data : list test_case) (st : state) : state :=
  match data with
  | [] => st
  | c :: rest => loop (i + 1) rest (body i c st)
  end.

(** The figures [compare_solutions] prints (source lines 80-118). *)
Record summary : Type := {
  original_avg : Q;
  improved_avg : Q;
  original_max : Q;
  improved_max : Q;
  cases_tested : Z;
  no_change : Z;
  shown : list comparison
}.

(** [compare_solutions] on the loaded corpus: the printed figures, or the
    exception of the first library call that raises. *)
Definition compare_solutions (data : list test_case) : PyLib.exn + summary :=
  let st := loop 0 data init in
  match PyLib.mean (original_errors st) with
  | inl e => inl e
  | inr original_avg =>
  match PyLib.mean (improved_errors st) with
  | inl e => inl e
  | inr improved_avg =>
  match PyLib.max (original_errors st) with
  | inl e => inl e
  | inr original_max =>
  match PyLib.max (improved_errors st) with
  | inl e => inl e
  | inr improved_max =>
      inr {| original_avg := original_avg;
             improved_avg := improved_avg;
             original_max := original_max;
             improved_max := improved_max;
             cases_tested := Z.of_nat (length (original_errors st));
             no_change :=
               (Z.of_nat (length (original_errors st))
                - improvements st - degradations st)%Z;
             shown := firstn 5 (sample_comparisons st) |}
  end end end end.

(** A case the loop does not skip: both engines returned a value (source
    line 52). *)
Definition tested (c : test_case) : bool :=
  match test_original_solution (trip_duration_days c) (miles_traveled c)
          (total_receipts_amount c),
        test_improved_solution (trip_duration_days c) (miles_traveled c)
          (total_receipts_amount c) with
  | Some _, Some _ => true
  | _, _ => false
  end.

(** What holds of every entry of [sample_comparisons] when the cases seen
    so far have indices below [n]. *)
Definition sample_ok (n : Z) (s : comparison) : Prop :=
  (0 <= case s < n)%Z
  /\ original_error s = Qabs (original s - expected s)
  /\ improved_error s = Qabs (improved s - expected s)
  /\ change s = improved_error s - original_error s
  /\ 5 < Qabs (change s).

(** What holds of the variables of the loop after the cases with indices
    below [n]. *)
Definition loop_invariant (n : Z) (st : state) : Prop :=
  length (original_errors st) = length (improved_errors st)
  /\ (0 <= improvements st)%Z
  /\ (0 <= degradations st)%Z
  /\ (improvements st + degradations st
      <= Z.of_nat (length (original_errors st)))%Z
  /\ (length (sample_comparisons st) <= 10)%nat
  /\ Forall (sample_ok n) (sample_comparisons st)
  /\ Forall (fun e => 0 <= e) (original_errors st)
  /\ Forall (fun e => 0 <= e) (improved_errors st).

(** An entry of [sample_comparisons] that records the case of the corpus at
    the index [case]: its formatted inputs, its expected output, the values
    the two engines returned for it, their absolute errors, and the
    difference of the errors, which exceeds 5 in absolute value. *)
Definition sample_of (data : list test_case) (s : comparison) : Prop :=
  exists c : test_case,
    (0 <= case s)%Z
    /\ nth_error data (Z.to_nat (case s)) = Some c
    /\ input s = format_input (trip_duration_days c) (miles_traveled c)
                  (total_receipts_amount c)
    /\ expected s = expected_output c
    /\ test_original_solution (trip_duration_days c) (miles_traveled c)
         (total_receipts_amount c) = Some (original s)
    /\ test_improved_solution (trip_duration_days c) (miles_traveled c)
         (total_receipts_amount c) = Some (improved s)
    /\ original_error s = Qabs (original s - expected s)
    /\ improved_error s = Qabs (improved s - expected s)
    /\ change s = improved_error s - original_error s
    /\ 5 < Qabs (change s).

End Harness.

Arguments case {Str} _.
Arguments input {Str} _.
Arguments expected {Str} _.
Arguments original {Str} _.
Arguments improved {Str} _.
Arguments original_error {Str} _.
Arguments improved_error {Str} _.
Arguments change {Str} _.
Arguments original_errors {Str} _.
Arguments improved_errors {Str} _.
Arguments improvements {Str} _.
Arguments degradations {Str} _.
Arguments sample_comparisons {Str} _.
Arguments init {Str}.
Arguments body {Str} _ _ _ _ _ _.
Arguments loop {Str} _ _ _ _ _ _.
Arguments original_avg {Str} _.
Arguments improved_avg {Str} _.
Arguments original_max {Str} _.
Arguments improved_max {Str} _.
Arguments cases_tested {Str} _.
Arguments no_change {Str} _.
Arguments shown {Str} _.
Arguments compare_solutions {Str} _ _ _ _.
Arguments sample_ok {Str} _ _.
Arguments loop_invariant {Str} _ _.
Arguments sample_of {Str} _ _ _ _ _.

End TestImprovements.

(** An instance of the harness: each subprocess returns what the function
    of its script returns, and fails when the function raises. *)
Definition engine_original (days : Z) (miles receipts : Q) : option Q :=
  match Baseline.calculate_reimbursement days miles receipts with
  | Ok v => Some v
  | Raise _ => None
  end.

Definition engine_improved (days : Z) (miles receipts : Q) : option Q :=
  match calculate_reimbursement days miles receipts with
  | Ok v => Some v
  | Raise _ => None
  end.

(** A corpus of three cases for the examples. *)
Definition sample_corpus : list test_case :=
  [ {| trip_duration_days := 5; miles_traveled := 250;
       total_receipts_amount := 500; expected_output := 100 |};
    {| trip_duration_days := 1; miles_traveled := 0;
       total_receipts_amount := 0; expected_output := 120 |};
    {| trip_duration_days := 2; miles_traveled := 1000;
       total_receipts_amount := 0; expected_output := 1500 |} ].

(** The two other scenarios of the specification: the five-day bonus with
    a mid-range receipt amount, and the upper mileage tier on its own. *)
Example scenario_5_250_500 :
  calculate_reimbursement 5 250 500 = Ok 897.50.
Proof. vm_compute. reflexivity. Qed.

Example scenario_2_1000_0 :
  calculate_reimbursement 2 1000 0 = Ok 620.00.
Proof. vm_compute. reflexivity. Qed.

(** ** Facts about the runtime pieces *)

Section Runtime.

Lemma ltb_spec (x y : Q) : reflect (x < y) (ltb x y).
Proof.
  unfold ltb. destruct (Qle_bool y x) eqn:E; simpl; constructor.
  - apply Qle_bool_iff in E. lra.
  - destruct (Qlt_le_dec x y) as [H | H]; [exact H|].
    apply Qle_bool_iff in H. congruence.
Qed.

Lemma leb_spec (x y : Q) : reflect (x <= y) (leb x y).
Proof.
  unfold leb. destruct (Qle_bool x y) eqn:E; constructor.
  - now apply Qle_bool_iff.
  - intro H. apply Qle_bool_iff in H. congruence.
Qed.

Lemma ltb_true (x y : Q) : x < y -> ltb x y = true.
Proof. intro H. destruct (ltb_spec x y); [reflexivity | contradiction]. Qed.

Lemma ltb_false (x y : Q) : y <= x -> ltb x y = false.
Proof. intro H. destruct (ltb_spec x y); [lra | reflexivity]. Qed.

(** On a non-negative float [int] is the floor. *)
Lemma int_nonneg (x : Q) : 0 <= x -> int x = Qfloor x.
Proof.
  intro H. unfold int.
  destruct (Qle_bool 0 x) eqn:E; [reflexivity|].
  apply Qle_bool_iff in H. congruence.
Qed.

Lemma round_half_even_floor (x : Q) :
  (Qfloor x <= round_half_even x <= Qfloor x + 1)%Z.
Proof.
  unfold round_half_even.
  destruct (ltb _ _); [lia|].
  destruct (ltb _ _); [lia|].
  destruct (Z.even _); lia.
Qed.

(** [round(x, 2)] is a whole number of cents. *)
Lemma round2_cents (x : Q) : exists k : Z, round2 x == inject_Z k / 100.
Proof.
  exists (round_half_even (x * 100)). unfold round2.
  rewrite (Qmake_Qdiv _ 100). reflexivity.
Qed.

(** [round(x, 2)] does not go below a whole number that [x] reaches. *)
Lemma round2_ge_Z (n : Z) (x : Q) : inject_Z n <= x -> inject_Z n <= round2 x.
Proof.
  intro H. unfold round2.
  pose proof (round_half_even_floor (x * 100)) as [Hlo _].
  assert (Hn : (n * 100 <= Qfloor (x * 100))%Z).
  { rewrite <- (Qfloor_Z (n * 100)). apply Qfloor_resp_le.
    rewrite inject_Z_mult. change (inject_Z 100) with 100. lra. }
  rewrite (Qmake_Qdiv _ 100). change (inject_Z (Z.pos 100)) with 100.
  apply Qle_shift_div_l; [lra|].
  assert (Hz : (n * 100 <= round_half_even (x * 100))%Z) by lia.
  rewrite Zle_Qle in Hz. rewrite inject_Z_mult in Hz.
  change (inject_Z 100) with 100 in Hz. exact Hz.
Qed.

End Runtime.

(** The runtime operations depend on the value of a float only, not on the
    fraction that represents it. *)
Section Representation.

#[local] Instance ltb_Proper : Proper (Qeq ==> Qeq ==> eq) ltb.
Proof. intros x x' Hx y y' Hy. unfold ltb. now rewrite Hx, Hy. Qed.

#[local] Instance leb_Proper : Proper (Qeq ==> Qeq ==> eq) leb.
Proof. intros x x' Hx y y' Hy. unfold leb. now rewrite Hx, Hy. Qed.

#[local] Instance int_Proper : Proper (Qeq ==> eq) int.
Proof.
  intros x x' Hx. unfold int. rewrite Hx.
  now rewrite (Qfloor_comp _ _ Hx), (Qceiling_comp _ _ Hx).
Qed.

#[local] Instance round_half_even_Proper : Proper (Qeq ==> eq) round_half_even.
Proof.
  intros x x' Hx. unfold round_half_even.
  rewrite (Qfloor_comp _ _ Hx). now rewrite !Hx.
Qed.

#[local] Instance round2_Proper : Proper (Qeq ==> eq) round2.
Proof. intros x x' Hx. unfold round2. now rewrite Hx. Qed.

#[local] Instance base_reimbursement_Proper (d : Z) :
  Proper (Qeq ==> Qeq) (base_reimbursement d).
Proof.
  intros m m' Hm. unfold base_reimbursement. cbv zeta.
  rewrite (ltb_Proper 800 800 (Qeq_refl _) m m' Hm).
  rewrite (ltb_Proper 400 400 (Qeq_refl _) m m' Hm).
  destruct (ltb 800 m'); [lra|].
  destruct (ltb 400 m'); lra.
Qed.

#[local] Instance receipt_contribution_Proper (d : Z) :
  Proper (Qeq ==> Qeq) (receipt_contribution d).
Proof.
  intros r r' Hr. unfold receipt_contribution, receipt_tiers. cbv zeta.
  rewrite (ltb_Proper 2000 2000 (Qeq_refl _) r r' Hr).
  rewrite (ltb_Proper 1000 1000 (Qeq_refl _) r r' Hr).
  destruct (ltb 2000 r'); [now rewrite Hr|].
  destruct (ltb 1000 r'); now rewrite Hr.
Qed.

#[local] Instance efficiency_bonus_Proper (d : Z) :
  Proper (Qeq ==> eq) (efficiency_bonus d).
Proof.
  intros m m' Hm. unfold efficiency_bonus, truediv.
  destruct (0 <? d)%Z; [|reflexivity].
  destruct (Qeq_bool (inject_Z d) 0); [reflexivity|]. simpl.
  now rewrite Hm.
Qed.

#[local] Instance quarter_adjustment_Proper (d : Z) :
  Proper (Qeq ==> Qeq ==> eq) (quarter_adjustment d).
Proof.
  intros m m' Hm r r' Hr. unfold quarter_adjustment, trip_hash.
  now rewrite Hm, Hr.
Qed.

Lemma cents_returns (r : Q) :
  cents r = Ok (int (r * 100 - 100 * inject_Z (Qfloor (r * 100 / 100)))).
Proof. reflexivity. Qed.

#[local] Instance rounding_bonus_Proper : Proper (Qeq ==> eq) rounding_bonus.
Proof.
  intros r r' Hr. unfold rounding_bonus. rewrite !cents_returns.
  assert (E : r * 100 - 100 * inject_Z (Qfloor (r * 100 / 100))
              == r' * 100 - 100 * inject_Z (Qfloor (r' * 100 / 100))).
  { assert (F : Qfloor (r * 100 / 100) = Qfloor (r' * 100 / 100))
      by (apply Qfloor_comp; now rewrite Hr).
    rewrite F. now rewrite Hr. }
  now rewrite (int_Proper _ _ E).
Qed.

#[local] Instance floor_clamp_Proper (d : Z) : Proper (Qeq ==> Qeq) (floor_clamp d).
Proof.
  intros t t' Ht. unfold floor_clamp. rewrite Ht.
  destruct (ltb t' _); [reflexivity | exact Ht].
Qed.

(** Two calls whose float arguments have the same value return the same
    result. *)
Lemma calculate_reimbursement_value (d : Z) (m m' r r' : Q) :
  m == m' -> r == r' ->
  calculate_reimbursement d m r = calculate_reimbursement d m' r'.
Proof.
  intros Hm Hr. unfold calculate_reimbursement, total_reimbursement.
  rewrite (efficiency_bonus_Proper d _ _ Hm).
  rewrite (rounding_bonus_Proper _ _ Hr).
  rewrite (quarter_adjustment_Proper d _ _ Hm _ _ Hr).
  destruct (efficiency_bonus d m') as [eb|e]; [|reflexivity].
  destruct (rounding_bonus r') as [rb|e]; [|reflexivity].
  simpl. f_equal. apply round2_Proper. apply floor_clamp_Proper.
  now rewrite Hm, Hr.
Qed.

End Representation.

(** ** The engine never raises *)

Section Totality.

Lemma truediv_pos (x : Q) (d : Z) :
  (0 < d)%Z -> truediv x (inject_Z d) = Ok (x / inject_Z d).
Proof.
  intro H. unfold truediv.
  destruct (Qeq_bool (inject_Z d) 0) eqn:E; [|reflexivity].
  apply Qeq_bool_eq in E. rewrite Zlt_Qlt in H. change (inject_Z 0) with 0 in H.
  rewrite E in H. lra.
Qed.

Lemma efficiency_bonus_returns (d : Z) (m : Q) :
  exists b : Z, efficiency_bonus d m = Ok b.
Proof.
  unfold efficiency_bonus. destruct (0 <? d)%Z eqn:E; [|now eexists].
  apply Z.ltb_lt in E. rewrite (truediv_pos _ _ E). simpl.
  destruct (_ && _); now eexists.
Qed.

Lemma rounding_bonus_returns (r : Q) :
  exists b : Z, rounding_bonus r = Ok b.
Proof.
  unfold rounding_bonus. rewrite cents_returns. simpl.
  destruct (_ =? 49)%Z; [now eexists|].
  destruct (_ =? 99)%Z; now eexists.
Qed.

Lemma total_reimbursement_returns (d : Z) (m r : Q) :
  exists t : Q, total_reimbursement d m r = Ok t.
Proof.
  unfold total_reimbursement.
  destruct (efficiency_bonus_returns d m) as [eb ->].
  destruct (rounding_bonus_returns r) as [rb ->].
  simpl. now eexists.
Qed.

Lemma floor_clamp_ge (d : Z) (t : Q) :
  inject_Z (min_reimbursement d) <= floor_clamp d t.
Proof.
  unfold floor_clamp.
  destruct (ltb_spec t (inject_Z (min_reimbursement d))); lra.
Qed.

(** For every input the engine returns a whole number of cents that is not
    below the floor. *)
Lemma calculate_reimbursement_returns (d : Z) (m r : Q) :
  exists v : Q,
    calculate_reimbursement d m r = Ok v
    /\ inject_Z (min_reimbursement d) <= v
    /\ exists k : Z, v == inject_Z k / 100.
Proof.
  unfold calculate_reimbursement.
  destruct (total_reimbursement_returns d m r) as [t ->]. simpl.
  eexists. split; [reflexivity|]. split.
  - apply round2_ge_Z, floor_clamp_ge.
  - apply round2_cents.
Qed.

End Totality.

(** ** Floor and rounding *)

Section Rounding.

Lemma Qfloor_unique (x : Q) (z : Z) :
  inject_Z z <= x -> x < inject_Z (z + 1) -> Qfloor x = z.
Proof.
  intros Hlo Hhi.
  pose proof (Qfloor_le x) as Fl. pose proof (Qlt_floor x) as Fh.
  assert (A : inject_Z z < inject_Z (Qfloor x + 1)) by lra.
  assert (B : inject_Z (Qfloor x) < inject_Z (z + 1)) by lra.
  rewrite <- Zlt_Qlt in A, B. lia.
Qed.

(** A whole number is its own rounding to cents. *)
Lemma round2_Z (n : Z) : round2 (inject_Z n) == inject_Z n.
Proof.
  unfold round2, round_half_even.
  assert (F : Qfloor (inject_Z n * 100) = (n * 100)%Z).
  { apply Qfloor_unique; rewrite ?inject_Z_plus, inject_Z_mult;
      change (inject_Z 100) with 100; change (inject_Z 1) with 1; lra. }
  rewrite F, ltb_true.
  - rewrite (Qmake_Qdiv _ 100), inject_Z_mult.
    change (inject_Z 100) with 100. change (inject_Z (Z.pos 100)) with 100.
    field.
  - rewrite inject_Z_mult. change (inject_Z 100) with 100. lra.
Qed.

Lemma floor_clamp_below (d : Z) (t : Q) :
  t < inject_Z (min_reimbursement d) ->
  floor_clamp d t = inject_Z (min_reimbursement d).
Proof. intro H. unfold floor_clamp. now rewrite ltb_true. Qed.

End Rounding.

(** ** The properties of the specification *)

(** C1 (floor invariant).  For a trip of at least one day with non-negative
    miles and receipts the engine returns a value, and that value is at least
    [duration_days * 85]; a running total below the floor is replaced by the
    floor before the final rounding, so the result is then the floor. *)
Theorem floor_invariant (d : Z) (m r : Q) :
  (1 <= d)%Z -> 0 <= m -> 0 <= r ->
  exists v : Q,
    calculate_reimbursement d m r = Ok v
    /\ inject_Z (d * 85) <= v
    /\ forall t : Q,
         total_reimbursement d m r = Ok t ->
         t < inject_Z (d * 85) ->
         floor_clamp d t = inject_Z (d * 85) /\ v == inject_Z (d * 85).
Proof.
  intros _ _ _.
  destruct (calculate_reimbursement_returns d m r) as (v & Hv & Hge & _).
  exists v. split; [exact Hv|]. split; [exact Hge|].
  intros t Ht Hlt. split; [now apply floor_clamp_below|].
  unfold calculate_reimbursement in Hv. rewrite Ht in Hv. simpl in Hv.
  injection Hv as <-. rewrite (floor_clamp_below d t Hlt).
  apply round2_Z.
Qed.

(** A fourteen-day trip with very large receipts: the running total is 422,
    below the floor 1190, and the result is the floor. *)
Lemma floor_invariant_witness :
  exists v : Q,
    calculate_reimbursement 14 0 100000 = Ok v
    /\ inject_Z (14 * 85) <= v
    /\ forall t : Q,
         total_reimbursement 14 0 100000 = Ok t ->
         t < inject_Z (14 * 85) ->
         floor_clamp 14 t = inject_Z (14 * 85) /\ v == inject_Z (14 * 85).
Proof.
  apply (floor_invariant 14 0 100000); [lia | lra | lra].
Defined.

(** C8 (scenario: one day, no miles, no receipts).  The result is the one-day
    base accrual 115.00: the mileage tiers leave the base at [1 * 115], the
    receipt contribution is zero, the efficiency, five-day, quarter and
    rounding bonuses are zero, and the running total 115 is not below the
    floor [1 * 85], so the clamp leaves it unchanged. *)
Theorem scenario_one_day :
  calculate_reimbursement 1 0 0 = Ok 115.00
  /\ base_reimbursement 1 0 == inject_Z (1 * 115)
  /\ receipt_contribution 1 0 == 0
  /\ efficiency_bonus 1 0 = Ok 0%Z
  /\ five_day_bonus 1 0 = 0%Z
  /\ quarter_adjustment 1 0 0 = 0%Z
  /\ rounding_bonus 0 = Ok 0%Z
  /\ (exists t : Q,
        total_reimbursement 1 0 0 = Ok t
        /\ t == 115
        /\ min_reimbursement 1 = 85%Z
        /\ ltb t (inject_Z (min_reimbursement 1)) = false
        /\ floor_clamp 1 t = t).
Proof.
  repeat split; try (vm_compute; reflexivity).
  eexists. repeat split; vm_compute; reflexivity.
Qed.

Example zero_duration_negative_total :
  exists t : Q, total_reimbursement 0 100 3000 = Ok t /\ t == -134
                /\ calculate_reimbursement 0 100 3000 = Ok 0.00.
Proof. eexists. repeat split; vm_compute; reflexivity. Qed.

(** ** Tiers *)

(** Case analysis on the float comparisons of a goal. *)
Ltac tiers :=
  repeat match goal with
         | |- context [ltb ?x ?y] => destruct (ltb_spec x y)
         | |- context [leb ?x ?y] => destruct (leb_spec x y)
         end.

(** C4 (mileage monotonicity).  For a fixed duration the base-plus-mileage
    subtotal does not decrease when the miles grow, and it grows by 0.42 per
    mile up to 400 miles, by [0.42 - 0.05] per mile between 400 and 800
    miles, and by [0.42 - 0.15] per mile above 800 miles; the three rates
    strictly decrease. *)
Theorem mileage_monotone (d : Z) (m1 m2 : Q) :
  m1 <= m2 ->
  base_reimbursement d m1 <= base_reimbursement d m2
  /\ (m2 <= 400 ->
      base_reimbursement d m2 - base_reimbursement d m1 == 0.42 * (m2 - m1))
  /\ (400 <= m1 -> m2 <= 800 ->
      base_reimbursement d m2 - base_reimbursement d m1
      == (0.42 - 0.05) * (m2 - m1))
  /\ (800 < m1 ->
      base_reimbursement d m2 - base_reimbursement d m1
      == (0.42 - 0.15) * (m2 - m1))
  /\ 0.42 - 0.15 < 0.42 - 0.05 /\ 0.42 - 0.05 < 0.42.
Proof.
  intros H12. unfold base_reimbursement. cbv zeta.
  repeat split; try intros; tiers; lra.
Qed.

Lemma mileage_monotone_witness :
  base_reimbursement 2 500 <= base_reimbursement 2 700
  /\ (700 <= 400 ->
      base_reimbursement 2 700 - base_reimbursement 2 500 == 0.42 * (700 - 500))
  /\ (400 <= 500 -> 700 <= 800 ->
      base_reimbursement 2 700 - base_reimbursement 2 500
      == (0.42 - 0.05) * (700 - 500))
  /\ (800 < 500 ->
      base_reimbursement 2 700 - base_reimbursement 2 500
      == (0.42 - 0.15) * (700 - 500))
  /\ 0.42 - 0.15 < 0.42 - 0.05 /\ 0.42 - 0.05 < 0.42.
Proof.
  apply (mileage_monotone 2 500 700); lra.
Defined.

(** The three branches of the receipt tiers. *)
Lemma receipt_tiers_low (k a : Q) : a <= 1000 -> receipt_tiers k a == a * k.
Proof. intro H. unfold receipt_tiers. rewrite !ltb_false by lra. reflexivity. Qed.

Lemma receipt_tiers_mid (k a : Q) :
  1000 <= a -> a <= 2000 -> receipt_tiers k a == 1000 * k + (a - 1000) * k * 0.6.
Proof.
  intros Hlo Hhi. unfold receipt_tiers. rewrite ltb_false by lra.
  destruct (ltb_spec 1000 a) as [_ | Hle]; [reflexivity|].
  assert (E : a == 1000) by lra. rewrite E. ring.
Qed.

Lemma receipt_tiers_high (k a : Q) :
  2000 < a -> receipt_tiers k a == (2000 + (a - 2000) * 0.2) * k.
Proof. intro H. unfold receipt_tiers. rewrite ltb_true by lra. reflexivity. Qed.

(** C3 (receipt-tier dampening).  For a duration whose receipt multiplier is
    positive, the receipt contribution grows by the multiplier per unit of
    receipts up to 1000, by [multiplier * 0.6] between 1000 and 2000, and by
    [multiplier * 0.2] above 2000; the three rates strictly decrease. *)
Theorem receipt_dampening (d : Z) (a1 a2 : Q) :
  0 < receipt_multiplier d ->
  (a1 <= 1000 -> a2 <= 1000 ->
   receipt_contribution d a2 - receipt_contribution d a1
   == receipt_multiplier d * (a2 - a1))
  /\ (1000 <= a1 <= 2000 -> 1000 <= a2 <= 2000 ->
      receipt_contribution d a2 - receipt_contribution d a1
      == receipt_multiplier d * 0.6 * (a2 - a1))
  /\ (2000 < a1 -> 2000 < a2 ->
      receipt_contribution d a2 - receipt_contribution d a1
      == receipt_multiplier d * 0.2 * (a2 - a1))
  /\ receipt_multiplier d * 0.2 < receipt_multiplier d * 0.6
  /\ receipt_multiplier d * 0.6 < receipt_multiplier d.
Proof.
  intro Hk. unfold receipt_contribution. repeat split.
  - intros H1 H2. rewrite !receipt_tiers_low by assumption. ring.
  - intros [L1 U1] [L2 U2]. rewrite !receipt_tiers_mid by assumption. ring.
  - intros H1 H2. rewrite !receipt_tiers_high by assumption. ring.
  - lra.
  - lra.
Qed.

Lemma receipt_dampening_witness :
  (1500 <= 1000 -> 1800 <= 1000 ->
   receipt_contribution 1 1800 - receipt_contribution 1 1500
   == receipt_multiplier 1 * (1800 - 1500))
  /\ (1000 <= 1500 <= 2000 -> 1000 <= 1800 <= 2000 ->
      receipt_contribution 1 1800 - receipt_contribution 1 1500
      == receipt_multiplier 1 * 0.6 * (1800 - 1500))
  /\ (2000 < 1500 -> 2000 < 1800 ->
      receipt_contribution 1 1800 - receipt_contribution 1 1500
      == receipt_multiplier 1 * 0.2 * (1800 - 1500))
  /\ receipt_multiplier 1 * 0.2 < receipt_multiplier 1 * 0.6
  /\ receipt_multiplier 1 * 0.6 < receipt_multiplier 1.
Proof.
  apply (receipt_dampening 1 1500 1800). reflexivity.
Defined.

(** ** Bonuses *)

(** C5 (efficiency-bonus bound).  For a trip of at least one day the
    efficiency bonus is zero when the miles per day are outside [200, 300],
    is [min (duration_days * 8) 40] when they are inside, ends included, and
    never exceeds 40. *)
Theorem efficiency_bonus_bound (d : Z) (m : Q) :
  (1 <= d)%Z ->
  exists b : Z,
    efficiency_bonus d m = Ok b
    /\ (m / inject_Z d < 200 \/ 300 < m / inject_Z d -> b = 0%Z)
    /\ (200 <= m / inject_Z d /\ m / inject_Z d <= 300 ->
        b = Z.min (d * 8) 40)
    /\ (b <= 40)%Z.
Proof.
  intro Hd. unfold efficiency_bonus.
  assert (E : (0 <? d)%Z = true) by (apply Z.ltb_lt; lia).
  rewrite E, truediv_pos by lia. cbn [bind].
  destruct (leb_spec 200 (m / inject_Z d)) as [Hlo | Hlo];
    destruct (leb_spec (m / inject_Z d) 300) as [Hhi | Hhi]; cbn [andb];
    eexists; (split; [reflexivity|]); repeat split; intros; try lia; lra.
Qed.

Lemma efficiency_bonus_bound_witness :
  exists b : Z,
    efficiency_bonus 2 500 = Ok b
    /\ (500 / inject_Z 2 < 200 \/ 300 < 500 / inject_Z 2 -> b = 0%Z)
    /\ (200 <= 500 / inject_Z 2 /\ 500 / inject_Z 2 <= 300 ->
        b = Z.min (2 * 8) 40)
    /\ (b <= 40)%Z.
Proof.
  apply (efficiency_bonus_bound 2 500). lia.
Defined.

Example efficiency_bonus_inside : efficiency_bonus 2 500 = Ok 16%Z.
Proof. reflexivity. Qed.

Example efficiency_bonus_outside : efficiency_bonus 2 601 = Ok 0%Z.
Proof. reflexivity. Qed.

Example efficiency_bonus_ceiling : efficiency_bonus 7 1400 = Ok 40%Z.
Proof. reflexivity. Qed.




Example quarter_adjustment_hit :
  trip_hash 3 1 7 = 13%Z /\ quarter_adjustment 3 1 7 = 15%Z.
Proof. split; reflexivity. Qed.

Example quarter_adjustment_miss :
  trip_hash 3 3 7 = 39%Z /\ quarter_adjustment 3 3 7 = 0%Z.
Proof. split; reflexivity. Qed.

Example quarter_adjustment_short_trip :
  trip_hash 2 1 9 = 10%Z /\ quarter_adjustment 2 1 9 = 0%Z.
Proof. split; reflexivity. Qed.

Example trip_hash_negative_miles :
  trip_hash 3 (-0.5) 10 = 15%Z /\ trip_hash_floor 3 (-0.5) 10 = 14%Z.
Proof. split; reflexivity. Qed.

(** In exact arithmetic the cent value is [floor (amount * 100) mod 100];
    the cent value of the binary64 product is [f64_cents_product] below. *)
Lemma cents_floor (a : Q) : cents a = Ok (Qfloor (a * 100) mod 100)%Z.
Proof.
  rewrite cents_returns. f_equal.
  set (x := a * 100). set (q := Qfloor (x / 100)).
  assert (Hq : inject_Z q <= x / 100) by apply Qfloor_le.
  assert (Hq' : x / 100 < inject_Z (q + 1)) by apply Qlt_floor.
  rewrite inject_Z_plus in Hq'. change (inject_Z 1) with 1 in Hq'.
  assert (Ex : x == 100 * (x / 100)) by (field; lra).
  assert (Lo : 0 <= x - 100 * inject_Z q) by lra.
  assert (Hi : x - 100 * inject_Z q < 100) by lra.
  rewrite (int_nonneg _ Lo).
  pose proof (Qfloor_le x) as Fl. pose proof (Qlt_floor x) as Fh.
  rewrite inject_Z_plus in Fh. change (inject_Z 1) with 1 in Fh.
  assert (F : Qfloor (x - 100 * inject_Z q) = (Qfloor x - 100 * q)%Z).
  { apply Qfloor_unique; unfold Z.sub;
      rewrite !inject_Z_plus, inject_Z_opp, inject_Z_mult;
      change (inject_Z 100) with 100; change (inject_Z 1) with 1; lra. }
  rewrite F.
  assert (B : (0 <= Qfloor x - 100 * q < 100)%Z).
  { rewrite <- F. split.
    - rewrite <- (Qfloor_Z 0). now apply Qfloor_resp_le.
    - assert (G : inject_Z (Qfloor (x - 100 * inject_Z q)) < inject_Z 100).
      { pose proof (Qfloor_le (x - 100 * inject_Z q)).
        change (inject_Z 100) with 100. lra. }
      now rewrite <- Zlt_Qlt in G. }
  apply (Z.mod_unique _ _ q); [lia | lia].
Qed.

Example rounding_bonus_49 : rounding_bonus 100.49 = Ok 8%Z.
Proof. reflexivity. Qed.

Example rounding_bonus_99 : rounding_bonus 7.99 = Ok 12%Z.
Proof. reflexivity. Qed.

Example rounding_bonus_48 : rounding_bonus 100.48 = Ok 0%Z.
Proof. reflexivity. Qed.

(** ** The jump of the receipt contribution at the upper cap *)

Lemma receipt_multiplier_default (d : Z) :
  (d < 1 \/ 14 < d)%Z -> receipt_multiplier d = -0.08.
Proof.
  intro H. unfold receipt_multiplier, multipliers. cbn [dict_get].
  repeat (match goal with
          | |- context [(?k =? d)%Z] => destruct (Z.eqb_spec k d); [lia|]
          end).
  reflexivity.
Qed.

(** The multiplier is negative for 13 and 14 days and for every duration
    that is not a key of the dict. *)
Lemma receipt_multiplier_negative (d : Z) :
  receipt_multiplier d < 0 <-> (d = 13 \/ d = 14 \/ d < 1 \/ 14 < d)%Z.
Proof.
  destruct (Z_lt_le_dec d 1) as [L | L].
  { rewrite receipt_multiplier_default by lia. split; [lia | reflexivity]. }
  destruct (Z_lt_le_dec 14 d) as [U | U].
  { rewrite receipt_multiplier_default by lia. split; [lia | reflexivity]. }
  assert (C : (d = 1 \/ d = 2 \/ d = 3 \/ d = 4 \/ d = 5 \/ d = 6 \/ d = 7
               \/ d = 8 \/ d = 9 \/ d = 10 \/ d = 11 \/ d = 12 \/ d = 13
               \/ d = 14)%Z) by lia.
  repeat (destruct C as [-> | C]; [split; [intro H; try lia; discriminate H | intro H; try lia; reflexivity]|]).
  subst d. split; [lia | reflexivity].
Qed.

Lemma receipt_contribution_at_cap (d : Z) :
  receipt_contribution d 2000 == 1600 * receipt_multiplier d.
Proof.
  unfold receipt_contribution. rewrite receipt_tiers_mid by lra. ring.
Qed.

Lemma receipt_contribution_above_cap (d : Z) (a : Q) :
  2000 < a ->
  receipt_contribution d a
  == 2000 * receipt_multiplier d + (a - 2000) * 0.2 * receipt_multiplier d.
Proof.
  intro H. unfold receipt_contribution. rewrite receipt_tiers_high by lra. ring.
Qed.

(** One cent across the cap changes neither the hash nor the rounding
    bonus. *)
Lemma quarter_adjustment_across_cap (d : Z) (m : Q) :
  quarter_adjustment d m 2000.01 = quarter_adjustment d m 2000.
Proof. reflexivity. Qed.

Lemma total_reimbursement_across_cap (d : Z) (m : Q) :
  exists t1 t2 : Q,
    total_reimbursement d m 2000 = Ok t1
    /\ total_reimbursement d m 2000.01 = Ok t2
    /\ t2 - t1 == receipt_contribution d 2000.01 - receipt_contribution d 2000.
Proof.
  unfold total_reimbursement.
  destruct (efficiency_bonus_returns d m) as [eb ->]. cbn [bind].
  change (rounding_bonus 2000) with (@Ok Z 0%Z).
  change (rounding_bonus 2000.01) with (@Ok Z 0%Z). cbn [bind].
  rewrite quarter_adjustment_across_cap.
  do 2 eexists. split; [reflexivity|]. split; [reflexivity|]. ring.
Qed.

(** C9 (jump at the upper cap).  At receipts of exactly 2000 the contribution
    is [1600 * multiplier]; at any amount above 2000 it is
    [2000 * multiplier] plus [0.2 * multiplier] per unit above the cap, a
    jump of [400 * multiplier].  The multiplier is negative exactly for 13
    and 14 days and for the durations outside 1..14; for those, one cent
    across 2000 strictly lowers the contribution and with it the running
    total before the floor, which is therefore not monotone in the
    receipts. *)
Theorem receipt_cap_jump (d : Z) (m a : Q) :
  2000 < a ->
  receipt_contribution d 2000 == 1600 * receipt_multiplier d
  /\ receipt_contribution d a
     == 2000 * receipt_multiplier d + (a - 2000) * 0.2 * receipt_multiplier d
  /\ receipt_contribution d a - receipt_contribution d 2000
     == 400 * receipt_multiplier d + (a - 2000) * 0.2 * receipt_multiplier d
  /\ (receipt_multiplier d < 0 <-> (d = 13 \/ d = 14 \/ d < 1 \/ 14 < d)%Z)
  /\ (receipt_multiplier d < 0 ->
      receipt_contribution d a < receipt_contribution d 2000
      /\ receipt_contribution d 2000.01 < receipt_contribution d 2000
      /\ exists t1 t2 : Q,
           total_reimbursement d m 2000 = Ok t1
           /\ total_reimbursement d m 2000.01 = Ok t2
           /\ t2 < t1).
Proof.
  intro Ha.
  pose proof (receipt_contribution_at_cap d) as E0.
  pose proof (receipt_contribution_above_cap d a Ha) as Ea.
  assert (Ec : 2000 < 2000.01) by reflexivity.
  pose proof (receipt_contribution_above_cap d 2000.01 Ec) as E1.
  split; [exact E0|]. split; [exact Ea|]. split; [rewrite Ea, E0; ring|].
  split; [apply receipt_multiplier_negative|].
  intro Hk.
  assert (Hj : receipt_contribution d 2000.01 < receipt_contribution d 2000).
  { rewrite E1, E0. lra. }
  split; [|split; [exact Hj|]].
  - rewrite Ea, E0. nra.
  - destruct (total_reimbursement_across_cap d m) as (t1 & t2 & H1 & H2 & Hd).
    exists t1, t2. split; [exact H1|]. split; [exact H2|]. lra.
Qed.

(** Thirteen days, no miles: the running total is 1487 at receipts of 2000
    and 1484.99999 at 2000.01. *)
Lemma receipt_cap_jump_witness :
  receipt_contribution 13 2000 == 1600 * receipt_multiplier 13
  /\ receipt_contribution 13 2000.01
     == 2000 * receipt_multiplier 13
        + (2000.01 - 2000) * 0.2 * receipt_multiplier 13
  /\ receipt_contribution 13 2000.01 - receipt_contribution 13 2000
     == 400 * receipt_multiplier 13
        + (2000.01 - 2000) * 0.2 * receipt_multiplier 13
  /\ (receipt_multiplier 13 < 0
      <-> (13 = 13 \/ 13 = 14 \/ 13 < 1 \/ 14 < 13)%Z)
  /\ (receipt_multiplier 13 < 0 ->
      receipt_contribution 13 2000.01 < receipt_contribution 13 2000
      /\ receipt_contribution 13 2000.01 < receipt_contribution 13 2000
      /\ exists t1 t2 : Q,
           total_reimbursement 13 0 2000 = Ok t1
           /\ total_reimbursement 13 0 2000.01 = Ok t2
           /\ t2 < t1).
Proof.
  apply (receipt_cap_jump 13 0 2000.01). reflexivity.
Defined.

Example running_total_across_cap :
  exists t1 t2 : Q,
    total_reimbursement 13 0 2000 = Ok t1 /\ t1 == 1487
    /\ total_reimbursement 13 0 2000.01 = Ok t2 /\ t2 == 1484.99999.
Proof. do 2 eexists. repeat split; vm_compute; reflexivity. Qed.

(** ** Further properties of the engine *)

Section Engine.

Lemma base_reimbursement_bounds (d : Z) (m : Q) :
  0 <= m ->
  inject_Z (d * 115) <= base_reimbursement d m
  /\ base_reimbursement d m <= inject_Z (d * 115) + 0.42 * m.
Proof.
  intro Hm. unfold base_reimbursement. cbv zeta.
  destruct (ltb_spec 800 m); [lra|].
  destruct (ltb_spec 400 m); lra.
Qed.

Lemma dict_get_multipliers_cases (d : Z) :
  (d < 1 \/ 14 < d)%Z
  \/ (d = 1 \/ d = 2 \/ d = 3 \/ d = 4 \/ d = 5 \/ d = 6 \/ d = 7 \/ d = 8
      \/ d = 9 \/ d = 10 \/ d = 11 \/ d = 12 \/ d = 13 \/ d = 14)%Z.
Proof. lia. Qed.

Lemma receipt_multiplier_range (d : Z) :
  -0.08 <= receipt_multiplier d <= 0.52.
Proof.
  destruct (dict_get_multipliers_cases d) as [H | H].
  - rewrite receipt_multiplier_default by exact H. split; discriminate.
  - repeat (destruct H as [-> | H]; [split; discriminate|]).
    subst d. split; discriminate.
Qed.

Lemma receipt_multiplier_nonneg (d : Z) :
  (1 <= d <= 12)%Z -> 0 <= receipt_multiplier d.
Proof.
  intro H.
  destruct (Qlt_le_dec (receipt_multiplier d) 0) as [N | N]; [|exact N].
  apply receipt_multiplier_negative in N. lia.
Qed.

Lemma receipt_tiers_sign (k r : Q) :
  0 <= r ->
  (0 <= k -> 0 <= receipt_tiers k r <= k * r)
  /\ (k <= 0 -> k * r <= receipt_tiers k r <= 0).
Proof.
  intro Hr. unfold receipt_tiers. cbv zeta.
  destruct (ltb_spec 2000 r); [|destruct (ltb_spec 1000 r)];
    split; intro Hk; split; nra.
Qed.

Lemma efficiency_bonus_range (d : Z) (m : Q) :
  exists b : Z, efficiency_bonus d m = Ok b /\ (0 <= b <= 40)%Z.
Proof.
  unfold efficiency_bonus. destruct (Z.ltb_spec 0 d) as [Hd | Hd].
  - rewrite truediv_pos by exact Hd. cbn [bind].
    destruct (_ && _); eexists; (split; [reflexivity | lia]).
  - exists 0%Z. split; [reflexivity | lia].
Qed.

Lemma quarter_adjustment_range (d : Z) (m r : Q) :
  (0 <= d)%Z -> (0 <= quarter_adjustment d m r <= d * 5)%Z.
Proof.
  intro Hd. unfold quarter_adjustment.
  destruct (3 <=? d)%Z; [|lia]. destruct (_ <? 15)%Z; lia.
Qed.

Lemma rounding_bonus_range (r : Q) :
  exists b : Z, rounding_bonus r = Ok b /\ (b = 0 \/ b = 8 \/ b = 12)%Z.
Proof.
  unfold rounding_bonus. rewrite cents_floor. cbn [bind].
  destruct (_ =? 49)%Z; [eexists; split; [reflexivity | lia]|].
  destruct (_ =? 99)%Z; eexists; (split; [reflexivity | lia]).
Qed.

End Engine.

(** X1.  For trips of 1 to 12 days with non-negative miles and receipts the
    running total is at least the base accrual [duration_days * 115], so the
    floor clamp changes nothing and the result is the rounded running
    total. *)
Theorem floor_inactive_short_trips (d : Z) (m r : Q) :
  (1 <= d <= 12)%Z -> 0 <= m -> 0 <= r ->
  exists t : Q,
    total_reimbursement d m r = Ok t
    /\ inject_Z (d * 115) <= t
    /\ floor_clamp d t = t
    /\ calculate_reimbursement d m r = Ok (round2 t).
Proof.
  intros Hd Hm Hr. unfold calculate_reimbursement, total_reimbursement.
  destruct (efficiency_bonus_range d m) as (eb & -> & Heb).
  destruct (rounding_bonus_range r) as (rb & -> & Hrb). cbn [bind].
  pose proof (base_reimbursement_bounds d m Hm) as [Hb _].
  pose proof (receipt_multiplier_nonneg d Hd) as Hk.
  pose proof (receipt_tiers_sign (receipt_multiplier d) r Hr) as [Hrc _].
  specialize (Hrc Hk). fold (receipt_contribution d r) in Hrc.
  assert (Hq : (0 <= quarter_adjustment d m r)%Z)
    by (apply quarter_adjustment_range; lia).
  assert (Hf : (0 <= five_day_bonus d eb)%Z)
    by (unfold five_day_bonus; destruct (d =? 5)%Z; lia).
  assert (Hrb' : (0 <= rb)%Z) by lia.
  rewrite Zle_Qle in Hq, Hf, Hrb'. change (inject_Z 0) with 0 in Hq, Hf, Hrb'.
  set (t := base_reimbursement d m + receipt_contribution d r
            + inject_Z (five_day_bonus d eb)
            + inject_Z (quarter_adjustment d m r) + inject_Z rb).
  assert (Ht : inject_Z (d * 115) <= t) by (unfold t; lra).
  assert (Hc : floor_clamp d t = t).
  { unfold floor_clamp. rewrite ltb_false; [reflexivity|].
    unfold min_reimbursement.
    assert (Hz : (d * 85 <= d * 115)%Z) by lia.
    rewrite Zle_Qle in Hz. lra. }
  exists t. repeat split; try assumption. now rewrite Hc.
Qed.

Lemma floor_inactive_short_trips_witness :
  exists t : Q,
    total_reimbursement 5 250 500 = Ok t
    /\ inject_Z (5 * 115) <= t
    /\ floor_clamp 5 t = t
    /\ calculate_reimbursement 5 250 500 = Ok (round2 t).
Proof.
  apply (floor_inactive_short_trips 5 250 500); [lia | lra | lra].
Defined.

(** X2.  The base has a jump at 800 miles: up to 800 miles it approaches
    [base 800] at the rate 0.37, and above 800 miles it is [base 800] plus
    20 plus 0.27 per further mile, because the reduction of the band from 400
    to 800 miles is dropped above 800 miles. *)
Theorem mileage_jump (d : Z) (m m' : Q) :
  400 <= m -> m <= 800 -> 800 < m' ->
  base_reimbursement d 800 - base_reimbursement d m == 0.37 * (800 - m)
  /\ base_reimbursement d m' - base_reimbursement d 800
     == 20 + 0.27 * (m' - 800)
  /\ base_reimbursement d 800 + 20 < base_reimbursement d m'.
Proof.
  intros Hlo Hhi Hm'.
  assert (E800 : base_reimbursement d 800 == inject_Z (d * 115) + 316).
  { unfold base_reimbursement. cbv zeta.
    change (ltb 800 800) with false. change (ltb 400 800) with true.
    cbv iota. lra. }
  assert (Em : base_reimbursement d m
               == inject_Z (d * 115) + m * 0.42 - (m - 400) * 0.05).
  { unfold base_reimbursement. cbv zeta. rewrite ltb_false by lra.
    destruct (ltb_spec 400 m); lra. }
  assert (Em' : base_reimbursement d m'
                == inject_Z (d * 115) + m' * 0.42 - (m' - 800) * 0.15).
  { unfold base_reimbursement. cbv zeta. now rewrite ltb_true by lra. }
  repeat split; rewrite ?E800, ?Em, ?Em'; lra.
Qed.

Lemma mileage_jump_witness :
  base_reimbursement 2 800 - base_reimbursement 2 700 == 0.37 * (800 - 700)
  /\ base_reimbursement 2 801 - base_reimbursement 2 800
     == 20 + 0.27 * (801 - 800)
  /\ base_reimbursement 2 800 + 20 < base_reimbursement 2 801.
Proof.
  apply (mileage_jump 2 700 801); lra.
Defined.

Lemma efficiency_bonus_pos (d : Z) (m : Q) :
  (0 < d)%Z ->
  efficiency_bonus d m =
  Ok (if leb 200 (m / inject_Z d) && leb (m / inject_Z d) 300
      then Z.min (d * 8) 40 else 0%Z).
Proof.
  intro Hd. unfold efficiency_bonus.
  assert (E : (0 <? d)%Z = true) by now apply Z.ltb_lt.
  rewrite E, truediv_pos by exact Hd. cbn [bind].
  now destruct (_ && _).
Qed.

(** X3.  The variable [efficiency_bonus] after the five-day bonus has been added
    to it: for a trip of at least one day it is at most 40 unless the trip
    lasts five days, and for five days it is 60 when the miles per day are in
    [200, 300] and 20 otherwise. *)
Theorem efficiency_with_five_day (d : Z) (m : Q) :
  (1 <= d)%Z ->
  exists b : Z,
    efficiency_bonus d m = Ok b
    /\ (0 <= five_day_bonus d b <= 60)%Z
    /\ (d <> 5%Z -> five_day_bonus d b = b /\ (b <= 40)%Z)
    /\ (d = 5%Z -> 1000 <= m <= 1500 -> five_day_bonus d b = 60%Z)
    /\ (d = 5%Z -> m < 1000 \/ 1500 < m -> five_day_bonus d b = 20%Z).
Proof.
  intro Hd. rewrite efficiency_bonus_pos by lia.
  eexists. split; [reflexivity|]. unfold five_day_bonus.
  split; [destruct (d =? 5)%Z; destruct (_ && _); lia|].
  split; [intro Hn; destruct (Z.eqb_spec d 5); [contradiction|];
          split; [reflexivity | destruct (_ && _); lia]|].
  assert (E : m / inject_Z 5 == m * (1 # 5))
    by (change (inject_Z 5) with 5; field).
  split; intros -> Hm; change (5 =? 5)%Z with true; cbv iota;
    destruct (leb_spec 200 (m / inject_Z 5)) as [A | A];
    destruct (leb_spec (m / inject_Z 5) 300) as [B | B];
    cbn [andb]; try reflexivity; exfalso; rewrite E in *; lra.
Qed.

Lemma efficiency_with_five_day_witness :
  exists b : Z,
    efficiency_bonus 5 1250 = Ok b
    /\ (0 <= five_day_bonus 5 b <= 60)%Z
    /\ (5%Z <> 5%Z -> five_day_bonus 5 b = b /\ (b <= 40)%Z)
    /\ (5%Z = 5%Z -> 1000 <= 1250 <= 1500 -> five_day_bonus 5 b = 60%Z)
    /\ (5%Z = 5%Z -> 1250 < 1000 \/ 1500 < 1250 -> five_day_bonus 5 b = 20%Z).
Proof.
  apply (efficiency_with_five_day 5 1250). lia.
Defined.


Lemma round_half_even_close (y : Q) :
  y - (1 # 2) <= inject_Z (round_half_even y) <= y + (1 # 2).
Proof.
  unfold round_half_even.
  pose proof (Qfloor_le y) as Fl. pose proof (Qlt_floor y) as Fh.
  rewrite inject_Z_plus in Fh. change (inject_Z 1) with 1 in Fh.
  destruct (ltb_spec (y - inject_Z (Qfloor y)) (1 # 2)); [lra|].
  destruct (ltb_spec (1 # 2) (y - inject_Z (Qfloor y)));
    [rewrite inject_Z_plus; change (inject_Z 1) with 1; lra|].
  destruct (Z.even (Qfloor y));
    rewrite ?inject_Z_plus; change (inject_Z 1) with 1; lra.
Qed.

(** [round(x, 2)] moves its argument by at most half a cent. *)
Lemma round2_close (x : Q) : x - (1 # 200) <= round2 x <= x + (1 # 200).
Proof.
  unfold round2. rewrite (Qmake_Qdiv _ 100).
  change (inject_Z (Z.pos 100)) with 100.
  pose proof (round_half_even_close (x * 100)) as [Lo Hi].
  set (z := inject_Z (round_half_even (x * 100))) in *.
  assert (E : z / 100 == z * (1 # 100)) by field.
  rewrite E. lra.
Qed.



(** X6.  The receipt contribution is monotone in the receipts, also across the
    two caps: it does not decrease when the multiplier is non-negative and
    does not increase when the multiplier is non-positive. *)
Theorem receipt_contribution_monotone (d : Z) (r1 r2 : Q) :
  r1 <= r2 ->
  (0 <= receipt_multiplier d ->
   receipt_contribution d r1 <= receipt_contribution d r2)
  /\ (receipt_multiplier d <= 0 ->
      receipt_contribution d r2 <= receipt_contribution d r1).
Proof.
  intro H. unfold receipt_contribution, receipt_tiers. cbv zeta.
  set (k := receipt_multiplier d).
  destruct (ltb_spec 2000 r1); destruct (ltb_spec 2000 r2);
    destruct (ltb_spec 1000 r1); destruct (ltb_spec 1000 r2);
    split; intro Hk; nra.
Qed.

Lemma receipt_contribution_monotone_witness :
  (0 <= receipt_multiplier 1 ->
   receipt_contribution 1 1999 <= receipt_contribution 1 2001)
  /\ (receipt_multiplier 1 <= 0 ->
      receipt_contribution 1 2001 <= receipt_contribution 1 1999).
Proof.
  apply (receipt_contribution_monotone 1 1999 2001). lra.
Defined.

(** X7.  For a trip of at least one day with non-negative miles and receipts the
    result is at most
    [120 * duration_days + 0.42 * miles + 0.52 * receipts + 72.005]. *)
Theorem result_upper_bound (d : Z) (m r : Q) :
  (1 <= d)%Z -> 0 <= m -> 0 <= r ->
  exists v : Q,
    calculate_reimbursement d m r = Ok v
    /\ v <= inject_Z (120 * d) + 0.42 * m + 0.52 * r + 72.005.
Proof.
  intros Hd Hm Hr. unfold calculate_reimbursement, total_reimbursement.
  destruct (efficiency_bonus_range d m) as (eb & -> & Heb).
  destruct (rounding_bonus_range r) as (rb & -> & Hrb). cbn [bind].
  eexists. split; [reflexivity|].
  pose proof (base_reimbursement_bounds d m Hm) as [_ Hb].
  pose proof (receipt_multiplier_range d) as [Kl Ku].
  pose proof (receipt_tiers_sign (receipt_multiplier d) r Hr) as [Hp Hn].
  fold (receipt_contribution d r) in Hp, Hn.
  assert (Hrc : receipt_contribution d r <= 0.52 * r).
  { destruct (Qlt_le_dec (receipt_multiplier d) 0) as [N | N].
    - assert (N' : receipt_multiplier d <= 0) by lra.
      specialize (Hn N'). nra.
    - specialize (Hp N). nra. }
  assert (Hq : (quarter_adjustment d m r <= d * 5)%Z)
    by (apply quarter_adjustment_range; lia).
  assert (Hf : (five_day_bonus d eb <= 60)%Z)
    by (unfold five_day_bonus; destruct (d =? 5)%Z; lia).
  assert (Hrb' : (rb <= 12)%Z) by lia.
  assert (Hd' : (1 <= d)%Z) by exact Hd.
  rewrite Zle_Qle in Hq, Hf, Hrb', Hd'. rewrite inject_Z_mult in Hq.
  change (inject_Z 5) with 5 in Hq. change (inject_Z 60) with 60 in Hf.
  change (inject_Z 12) with 12 in Hrb'. change (inject_Z 1) with 1 in Hd'.
  set (t := base_reimbursement d m + receipt_contribution d r
            + inject_Z (five_day_bonus d eb)
            + inject_Z (quarter_adjustment d m r) + inject_Z rb).
  pose proof (round2_close (floor_clamp d t)) as [_ Hround].
  assert (Hc : floor_clamp d t
               <= inject_Z (120 * d) + 0.42 * m + 0.52 * r + 72).
  { rewrite inject_Z_mult. change (inject_Z 120) with 120.
    unfold floor_clamp, min_reimbursement.
    destruct (ltb_spec t (inject_Z (d * 85))).
    - rewrite inject_Z_mult. change (inject_Z 85) with 85. nra.
    - unfold t. rewrite inject_Z_mult in Hb. change (inject_Z 115) with 115 in Hb.
      lra. }
  lra.
Qed.

Lemma result_upper_bound_witness :
  exists v : Q,
    calculate_reimbursement 5 1250 1000.99 = Ok v
    /\ v <= inject_Z (120 * 5) + 0.42 * 1250 + 0.52 * 1000.99 + 72.005.
Proof.
  apply (result_upper_bound 5 1250 1000.99); [lia | lra | lra].
Defined.

(** ** The baseline engine *)

Section BaselineEngine.

Lemma baseline_base_pos (d : Z) (m : Q) :
  (0 < d)%Z ->
  Baseline.base_reimbursement d m =
  Ok (if ltb 600 (m / inject_Z d)
      then inject_Z (d * 120) + m * 0.4 - (m - inject_Z (600 * d)) * 0.2
      else inject_Z (d * 120) + m * 0.4).
Proof.
  intro Hd. unfold Baseline.base_reimbursement. cbv zeta.
  assert (E : (0 <? d)%Z = true) by now apply Z.ltb_lt.
  rewrite E, truediv_pos by exact Hd. cbn [bind].
  now destruct (ltb 600 _).
Qed.

Lemma baseline_base_nonpos (d : Z) (m : Q) :
  (d <= 0)%Z ->
  Baseline.base_reimbursement d m =
  Ok (if ltb 600 m
      then inject_Z (d * 120) + m * 0.4 - (m - inject_Z (600 * d)) * 0.2
      else inject_Z (d * 120) + m * 0.4).
Proof.
  intro Hd. unfold Baseline.base_reimbursement. cbv zeta.
  assert (E : (0 <? d)%Z = false) by (apply Z.ltb_ge; lia).
  rewrite E. cbn [bind]. now destruct (ltb 600 m).
Qed.

(** For a positive duration the test on the miles per day is a test on the
    miles. *)
Lemma miles_per_day_test (d : Z) (m : Q) :
  (0 < d)%Z -> ltb 600 (m / inject_Z d) = ltb (inject_Z (600 * d)) m.
Proof.
  intro Hd.
  assert (Hq : 0 < inject_Z d) by (change 0 with (inject_Z 0); now rewrite <- Zlt_Qlt).
  assert (E : inject_Z (600 * d) == 600 * inject_Z d)
    by (rewrite inject_Z_mult; reflexivity).
  destruct (ltb_spec 600 (m / inject_Z d)) as [A | A];
    destruct (ltb_spec (inject_Z (600 * d)) m) as [B | B];
    try reflexivity; exfalso.
  - apply (Qmult_lt_r _ _ _ Hq) in A.
    assert (F : m / inject_Z d * inject_Z d == m) by (field; lra).
    rewrite F in A. lra.
  - apply A. apply Qlt_shift_div_l; [exact Hq | lra].
Qed.

End BaselineEngine.

(** X8.  For a trip of at least one day the base of the baseline engine is
    continuous and non-decreasing in the miles: it grows by at most 0.4 per
    mile, and by 0.2 per mile once the miles exceed [600 * duration_days]. *)
Theorem baseline_mileage_monotone (d : Z) (m1 m2 : Q) :
  (1 <= d)%Z -> m1 <= m2 ->
  exists b1 b2 : Q,
    Baseline.base_reimbursement d m1 = Ok b1
    /\ Baseline.base_reimbursement d m2 = Ok b2
    /\ b1 <= b2
    /\ b2 - b1 <= 0.4 * (m2 - m1)
    /\ (inject_Z (600 * d) <= m1 -> b2 - b1 == 0.2 * (m2 - m1)).
Proof.
  intros Hd H. rewrite !baseline_base_pos, !miles_per_day_test by lia.
  do 2 eexists. split; [reflexivity|]. split; [reflexivity|].
  destruct (ltb_spec (inject_Z (600 * d)) m1);
    destruct (ltb_spec (inject_Z (600 * d)) m2);
    repeat split; intros; lra.
Qed.

Lemma baseline_mileage_monotone_witness :
  exists b1 b2 : Q,
    Baseline.base_reimbursement 2 1000 = Ok b1
    /\ Baseline.base_reimbursement 2 1500 = Ok b2
    /\ b1 <= b2
    /\ b2 - b1 <= 0.4 * (1500 - 1000)
    /\ (inject_Z (600 * 2) <= 1000 -> b2 - b1 == 0.2 * (1500 - 1000)).
Proof.
  apply (baseline_mileage_monotone 2 1000 1500); [lia | lra].
Defined.

(** X9.  For a duration of zero or less the baseline engine does not divide: it
    tests the miles themselves against 600, and the base then drops when the
    miles cross 600: between 600 and [1200 - 600 * duration_days] miles it is
    below its value at 600 miles. *)
Theorem baseline_zero_duration_drop (d : Z) (m : Q) :
  (d <= 0)%Z -> 600 < m -> m < inject_Z (1200 - 600 * d) ->
  exists b0 b : Q,
    Baseline.base_reimbursement d 600 = Ok b0
    /\ Baseline.base_reimbursement d m = Ok b
    /\ b0 == inject_Z (d * 120) + 240
    /\ b == inject_Z (d * 240) + 0.2 * m
    /\ b < b0.
Proof.
  intros Hd Hlo Hhi. rewrite !baseline_base_nonpos by exact Hd.
  change (ltb 600 600) with false. rewrite (ltb_true _ _ Hlo).
  do 2 eexists. split; [reflexivity|]. split; [reflexivity|].
  unfold Z.sub in Hhi.
  rewrite inject_Z_plus, inject_Z_opp, !inject_Z_mult in *.
  change (inject_Z 1200) with 1200 in *. change (inject_Z 600) with 600 in *.
  change (inject_Z 120) with 120. change (inject_Z 240) with 240.
  repeat split; lra.
Qed.

Lemma baseline_zero_duration_drop_witness :
  exists b0 b : Q,
    Baseline.base_reimbursement 0 600 = Ok b0
    /\ Baseline.base_reimbursement 0 700 = Ok b
    /\ b0 == inject_Z (0 * 120) + 240
    /\ b == inject_Z (0 * 240) + 0.2 * 700
    /\ b < b0.
Proof.
  apply (baseline_zero_duration_drop 0 700); [lia | lra | reflexivity].
Defined.

(** X10.  The cap of the baseline engine has no jump: the capped receipts grow
    with the receipts, never faster than the receipts, and so the receipt
    contribution moves by at most the multiplier times the change, in the
    direction of the sign of the multiplier. *)
Theorem baseline_receipts_no_jump (d : Z) (r1 r2 : Q) :
  r1 <= r2 ->
  0 <= Baseline.capped_receipts r2 - Baseline.capped_receipts r1
  /\ Baseline.capped_receipts r2 - Baseline.capped_receipts r1 <= r2 - r1
  /\ (0 <= Baseline.receipt_multiplier d ->
      0 <= Baseline.receipt_contribution d r2 - Baseline.receipt_contribution d r1
      /\ Baseline.receipt_contribution d r2 - Baseline.receipt_contribution d r1
         <= Baseline.receipt_multiplier d * (r2 - r1))
  /\ (Baseline.receipt_multiplier d <= 0 ->
      Baseline.receipt_multiplier d * (r2 - r1)
      <= Baseline.receipt_contribution d r2 - Baseline.receipt_contribution d r1
      /\ Baseline.receipt_contribution d r2 - Baseline.receipt_contribution d r1
         <= 0).
Proof.
  intro H. unfold Baseline.receipt_contribution.
  set (k := Baseline.receipt_multiplier d).
  assert (C : 0 <= Baseline.capped_receipts r2 - Baseline.capped_receipts r1
              /\ Baseline.capped_receipts r2 - Baseline.capped_receipts r1
                 <= r2 - r1).
  { unfold Baseline.capped_receipts. cbv zeta.
    destruct (ltb_spec 1500 r1); destruct (ltb_spec 1500 r2); lra. }
  destruct C as [C1 C2].
  set (c1 := Baseline.capped_receipts r1) in *.
  set (c2 := Baseline.capped_receipts r2) in *.
  repeat split; try assumption; intros; nra.
Qed.

Lemma baseline_receipts_no_jump_witness :
  0 <= Baseline.capped_receipts 1501 - Baseline.capped_receipts 1499
  /\ Baseline.capped_receipts 1501 - Baseline.capped_receipts 1499 <= 1501 - 1499
  /\ (0 <= Baseline.receipt_multiplier 1 ->
      0 <= Baseline.receipt_contribution 1 1501 - Baseline.receipt_contribution 1 1499
      /\ Baseline.receipt_contribution 1 1501 - Baseline.receipt_contribution 1 1499
         <= Baseline.receipt_multiplier 1 * (1501 - 1499))
  /\ (Baseline.receipt_multiplier 1 <= 0 ->
      Baseline.receipt_multiplier 1 * (1501 - 1499)
      <= Baseline.receipt_contribution 1 1501 - Baseline.receipt_contribution 1 1499
      /\ Baseline.receipt_contribution 1 1501 - Baseline.receipt_contribution 1 1499
         <= 0).
Proof.
  apply (baseline_receipts_no_jump 1 1499 1501). lra.
Defined.

(** X11.  Where none of its special cases applies (a trip of at least one day, at
    most 600 miles per day, receipts of at most 1500, and not a trip of 13
    days or more with receipts under 500) the baseline engine returns the
    rounded value of [current_formula] of [final_analysis.py]. *)
Theorem baseline_plain_region (d : Z) (m r : Q) :
  (1 <= d)%Z -> m <= inject_Z (600 * d) -> r <= 1500 ->
  (d < 13)%Z \/ 500 <= r ->
  Baseline.calculate_reimbursement d m r
  = Ok (round2 (FinalAnalysis.current_formula d m r)).
Proof.
  intros Hd Hm Hr Hl. unfold Baseline.calculate_reimbursement.
  rewrite baseline_base_pos, miles_per_day_test by lia.
  rewrite (ltb_false _ _ Hm). cbn [bind]. f_equal.
  apply round2_Proper.
  unfold Baseline.long_trip_adjustment.
  assert (F : (13 <=? d)%Z && ltb r 500 = false).
  { destruct Hl as [Hl | Hl].
    - assert (E : (13 <=? d)%Z = false) by (apply Z.leb_gt; lia).
      now rewrite E.
    - rewrite (ltb_false _ _ Hl). apply andb_false_r. }
  rewrite F.
  unfold Baseline.receipt_contribution, Baseline.capped_receipts.
  rewrite (ltb_false _ _ Hr).
  unfold FinalAnalysis.current_formula. cbv zeta.
  change (dict_get FinalAnalysis.multipliers d (-0.1))
    with (Baseline.receipt_multiplier d).
  rewrite (Z.mul_comm d 120). reflexivity.
Qed.

Lemma baseline_plain_region_witness :
  Baseline.calculate_reimbursement 3 300 200
  = Ok (round2 (FinalAnalysis.current_formula 3 300 200)).
Proof.
  apply (baseline_plain_region 3 300 200);
    [lia | apply Qle_bool_imp_le; reflexivity | lra | left; lia].
Defined.

(** X12.  [current_formula] of [final_analysis.py] and [with_median_multipliers]
    of [show_improvement.py] are the same formula: the simple formula plus
    the receipts times the median multiplier of the duration. *)
Theorem median_formulas_agree (d : Z) (m r : Q) :
  FinalAnalysis.current_formula d m r
  == ShowImprovement.with_median_multipliers d m r
  /\ ShowImprovement.with_median_multipliers d m r
     == ShowImprovement.simple_formula d m r
        + Baseline.receipt_multiplier d * r.
Proof.
  unfold FinalAnalysis.current_formula, ShowImprovement.with_median_multipliers,
    ShowImprovement.simple_formula. cbv zeta.
  change (dict_get FinalAnalysis.multipliers d (-0.1))
    with (Baseline.receipt_multiplier d).
  change (dict_get ShowImprovement.median_multipliers d (-0.1))
    with (Baseline.receipt_multiplier d).
  split; ring.
Qed.

Lemma avg_multipliers_default (d : Z) :
  (d < 1 \/ 5 < d)%Z -> dict_get ShowImprovement.avg_multipliers d 0.1 = 0.1.
Proof.
  intro H. unfold ShowImprovement.avg_multipliers. cbn [dict_get].
  repeat (match goal with
          | |- context [(?k =? d)%Z] => destruct (Z.eqb_spec k d); [lia|]
          end).
  reflexivity.
Qed.

Lemma avg_multipliers_positive (d : Z) :
  0.1 <= dict_get ShowImprovement.avg_multipliers d 0.1.
Proof.
  assert (C : (d < 1 \/ 5 < d)%Z \/ (d = 1 \/ d = 2 \/ d = 3 \/ d = 4 \/ d = 5)%Z)
    by lia.
  destruct C as [C | C].
  - rewrite avg_multipliers_default by exact C. discriminate.
  - repeat (destruct C as [-> | C]; [discriminate|]). subst d. discriminate.
Qed.

(** X13.  [with_average_multipliers] falls back on the multiplier 0.1 for every
    duration that is not a key of its table (1 to 5 days), and every
    multiplier it uses is at least 0.1: for non-negative receipts its result
    is at least the simple formula plus a tenth of the receipts. *)
Theorem average_multipliers_fallback (d : Z) (m r : Q) :
  0 <= r ->
  ShowImprovement.simple_formula d m r + 0.1 * r
  <= ShowImprovement.with_average_multipliers d m r
  /\ ((d < 1 \/ 5 < d)%Z ->
      ShowImprovement.with_average_multipliers d m r
      == ShowImprovement.simple_formula d m r + 0.1 * r).
Proof.
  intro Hr.
  unfold ShowImprovement.with_average_multipliers, ShowImprovement.simple_formula.
  cbv zeta. split.
  - pose proof (avg_multipliers_positive d) as Hk.
    set (k := dict_get ShowImprovement.avg_multipliers d 0.1) in *. nra.
  - intro Hd. rewrite avg_multipliers_default by exact Hd. reflexivity.
Qed.

Lemma average_multipliers_fallback_witness :
  ShowImprovement.simple_formula 9 100 50 + 0.1 * 50
  <= ShowImprovement.with_average_multipliers 9 100 50
  /\ ((9 < 1 \/ 5 < 9)%Z ->
      ShowImprovement.with_average_multipliers 9 100 50
      == ShowImprovement.simple_formula 9 100 50 + 0.1 * 50).
Proof.
  apply (average_multipliers_fallback 9 100 50). lra.
Defined.

(** ** The comparison harness *)

Section HarnessFacts.

Variable Str : Type.
Variable format_input : Z -> Q -> Q -> Str.
Variable test_original_solution : Z -> Q -> Q -> option Q.
Variable test_improved_solution : Z -> Q -> Q -> option Q.

Local Abbreviation body :=
  (TestImprovements.body format_input test_original_solution test_improved_solution).
Local Abbreviation loop :=
  (TestImprovements.loop format_input test_original_solution test_improved_solution).
Local Abbreviation tested :=
  (TestImprovements.tested test_original_solution test_improved_solution).
Local Abbreviation compare_solutions :=
  (TestImprovements.compare_solutions format_input test_original_solution
     test_improved_solution).
Local Abbreviation state := (TestImprovements.state Str).
Local Abbreviation loop_invariant := (@TestImprovements.loop_invariant Str).
Local Abbreviation sample_ok := (@TestImprovements.sample_ok Str).
Local Abbreviation sample_of :=
  (TestImprovements.sample_of format_input test_original_solution
     test_improved_solution).

Lemma body_skipped (i : Z) (c : test_case) (st : state) :
  tested c = false -> body i c st = st.
Proof.
  unfold TestImprovements.tested, TestImprovements.body.
  destruct (test_original_solution _ _ _);
    [destruct (test_improved_solution _ _ _); [discriminate|]|];
    intros _; reflexivity.
Qed.

Lemma body_invariant (n i : Z) (c : test_case) (st : state) :
  (0 <= i < n)%Z -> loop_invariant n st -> loop_invariant n (body i c st).
Proof.
  intros Hi (Hlen & Himp & Hdeg & Hsum & Hsam & Hok & Ho & Hn).
  unfold TestImprovements.body.
  destruct (test_original_solution _ _ _) as [o|];
    [|repeat split; assumption].
  destruct (test_improved_solution _ _ _) as [p|];
    [|repeat split; assumption].
  unfold TestImprovements.loop_invariant. cbn [TestImprovements.original_errors
    TestImprovements.improved_errors TestImprovements.improvements
    TestImprovements.degradations TestImprovements.sample_comparisons].
  rewrite !length_app. cbn [length].
  split; [lia|].
  split; [destruct (ltb _ _); lia|].
  split; [destruct (ltb _ _); [lia|]; destruct (ltb _ _); lia|].
  split; [destruct (ltb _ _); [lia|]; destruct (ltb _ _); lia|].
  split.
  { destruct (Z.ltb_spec (Z.of_nat (length (TestImprovements.sample_comparisons st))) 10);
      cbn [andb]; [|exact Hsam].
    destruct (ltb _ _); [|exact Hsam]. rewrite length_app. cbn [length]. lia. }
  split.
  { destruct (_ <? 10)%Z; cbn [andb]; [|exact Hok].
    destruct (ltb_spec 5 (Qabs (Qabs (p - expected_output c)
                                - Qabs (o - expected_output c))));
      [|exact Hok].
    apply Forall_app. split; [exact Hok|]. constructor; [|constructor].
    repeat split; cbn; try reflexivity; try lia. assumption. }
  split; apply Forall_app; (split; [assumption|]);
    constructor; try constructor; apply Qabs_nonneg.
Qed.

Lemma loop_keeps_invariant (n : Z) (data : list test_case) :
  forall (i : Z) (st : state),
    (0 <= i)%Z -> (i + Z.of_nat (length data) <= n)%Z ->
    loop_invariant n st -> loop_invariant n (loop i data st).
Proof.
  induction data as [|c rest IH]; intros i st Hi Hn Hst; cbn [TestImprovements.loop].
  - exact Hst.
  - cbn [length] in Hn. apply IH; [lia | lia |].
    apply body_invariant; [lia | exact Hst].
Qed.

Lemma init_invariant (n : Z) : loop_invariant n TestImprovements.init.
Proof.
  unfold TestImprovements.loop_invariant, TestImprovements.init. cbn.
  repeat split; try lia; constructor.
Qed.

Lemma loop_tested_count (data : list test_case) :
  forall (i : Z) (st : state),
    length (TestImprovements.original_errors (loop i data st))
    = (length (TestImprovements.original_errors st)
       + length (filter tested data))%nat.
Proof.
  induction data as [|c rest IH]; intros i st; cbn [TestImprovements.loop filter].
  - cbn. lia.
  - rewrite IH. destruct (tested c) eqn:E.
    + cbn [length]. unfold TestImprovements.body.
      unfold TestImprovements.tested in E.
      destruct (test_original_solution _ _ _); [|discriminate E].
      destruct (test_improved_solution _ _ _); [|discriminate E].
      cbn [TestImprovements.original_errors]. rewrite length_app. cbn. lia.
    + now rewrite body_skipped.
Qed.

(** X14.  After the loop of [compare_solutions] the two lists of errors have the
    same length, which is the number of cases for which both engines
    returned a value; every error is non-negative; and the counters of
    improvements and degradations are non-negative and together at most that
    length, so the printed number of unchanged cases is not negative. *)
Theorem compare_loop_counts (data : list test_case) :
  let st := loop 0 data TestImprovements.init in
  length (TestImprovements.original_errors st) = length (filter tested data)
  /\ length (TestImprovements.improved_errors st) = length (filter tested data)
  /\ (length (TestImprovements.original_errors st) <= length data)%nat
  /\ (0 <= TestImprovements.improvements st)%Z
  /\ (0 <= TestImprovements.degradations st)%Z
  /\ (0 <= Z.of_nat (length (TestImprovements.original_errors st))
          - TestImprovements.improvements st
          - TestImprovements.degradations st)%Z
  /\ Forall (fun e => 0 <= e) (TestImprovements.original_errors st)
  /\ Forall (fun e => 0 <= e) (TestImprovements.improved_errors st).
Proof.
  intro st.
  assert (I : loop_invariant (Z.of_nat (length data)) st).
  { apply loop_keeps_invariant; [lia | lia | apply init_invariant]. }
  destruct I as (Hlen & Himp & Hdeg & Hsum & _ & _ & Ho & Hn).
  assert (C : length (TestImprovements.original_errors st)
              = length (filter tested data)).
  { unfold st. rewrite loop_tested_count. reflexivity. }
  repeat split; try assumption; try lia.
  rewrite C. apply filter_length_le.
Qed.

Lemma nth_error_middle {A : Type} (pre rest : list A) (c : A) :
  nth_error (pre ++ c :: rest) (Z.to_nat (Z.of_nat (length pre))) = Some c.
Proof.
  rewrite Nat2Z.id, nth_error_app2 by lia. now rewrite Nat.sub_diag.
Qed.

Lemma body_samples_of (pre rest : list test_case) (c : test_case) (st : state) :
  Forall (sample_of (pre ++ c :: rest)) (TestImprovements.sample_comparisons st) ->
  Forall (sample_of (pre ++ c :: rest))
    (TestImprovements.sample_comparisons (body (Z.of_nat (length pre)) c st)).
Proof.
  intro H. unfold TestImprovements.body.
  destruct (test_original_solution _ _ _) as [o|] eqn:Eo; [|exact H].
  destruct (test_improved_solution _ _ _) as [p|] eqn:Ei; [|exact H].
  cbn [TestImprovements.sample_comparisons].
  destruct (_ <? 10)%Z; cbn [andb]; [|exact H].
  destruct (ltb_spec 5 (Qabs (Qabs (p - expected_output c)
                              - Qabs (o - expected_output c)))) as [L | L];
    [|exact H].
  apply Forall_app. split; [exact H|]. constructor; [|constructor].
  exists c. cbn.
  split; [lia|]. split; [apply nth_error_middle|].
  split; [reflexivity|]. split; [reflexivity|].
  split; [exact Eo|]. split; [exact Ei|].
  split; [reflexivity|]. split; [reflexivity|]. split; [reflexivity | exact L].
Qed.

Lemma loop_samples_of (rest : list test_case) :
  forall (pre : list test_case) (st : state),
    Forall (sample_of (pre ++ rest)) (TestImprovements.sample_comparisons st) ->
    Forall (sample_of (pre ++ rest))
      (TestImprovements.sample_comparisons
         (loop (Z.of_nat (length pre)) rest st)).
Proof.
  induction rest as [|c rest IH]; intros pre st H; cbn [TestImprovements.loop];
    [exact H|].
  replace (Z.of_nat (length pre) + 1)%Z with (Z.of_nat (length (pre ++ [c])))
    by (rewrite length_app; cbn [length]; lia).
  replace (pre ++ c :: rest) with ((pre ++ [c]) ++ rest)
    by (rewrite <- app_assoc; reflexivity).
  apply IH. rewrite <- app_assoc. cbn [app]. now apply body_samples_of.
Qed.

(** X15.  The loop keeps at most ten sample comparisons.  Each one records
    the case of the corpus at its index [case]: the formatted inputs and the
    expected output of that case, the values the two engines returned for
    it, their two absolute errors and the difference of the errors as
    [change], and the difference is more than 5 in absolute value. *)
Theorem compare_loop_samples (data : list test_case) :
  let st := loop 0 data TestImprovements.init in
  (length (TestImprovements.sample_comparisons st) <= 10)%nat
  /\ Forall (sample_of data) (TestImprovements.sample_comparisons st).
Proof.
  intro st.
  assert (I : loop_invariant (Z.of_nat (length data)) st).
  { apply loop_keeps_invariant; [lia | lia | apply init_invariant]. }
  destruct I as (_ & _ & _ & _ & Hsam & _ & _ & _).
  split; [exact Hsam|].
  apply (loop_samples_of data [] TestImprovements.init). constructor.
Qed.

End HarnessFacts.

(** ** The library calls *)

Section Library.

Lemma sum_bounds (b : Q) (l : list Q) :
  forall acc : Q,
    Forall (fun x => 0 <= x /\ x <= b) l ->
    acc <= fold_left Qplus l acc
    /\ fold_left Qplus l acc <= acc + inject_Z (Z.of_nat (length l)) * b.
Proof.
  induction l as [|x l IH]; intros acc H; cbn [fold_left length].
  - change (inject_Z (Z.of_nat 0)) with 0. lra.
  - inversion H as [|? ? [Hx0 Hxb] Hl]; subst.
    destruct (IH (acc + x) Hl) as [Lo Hi].
    rewrite Nat2Z.inj_succ. unfold Z.succ. rewrite inject_Z_plus.
    change (inject_Z 1) with 1. lra.
Qed.

Lemma max_fold_ge (l : list Q) :
  forall acc : Q,
    acc <= fold_left (fun maxval item => if ltb maxval item then item else maxval) l acc
    /\ Forall (fun x => x <= fold_left
                 (fun maxval item => if ltb maxval item then item else maxval) l acc) l.
Proof.
  induction l as [|x l IH]; intro acc; cbn [fold_left].
  - split; [lra | constructor].
  - destruct (IH (if ltb acc x then x else acc)) as [Lo All].
    destruct (ltb_spec acc x); split; try lra; constructor; (lra || exact All).
Qed.

(** On a list that is not empty [mean] and [max] return, and the mean of
    non-negative numbers lies between zero and the maximum. *)
Lemma mean_le_max (l : list Q) :
  l <> [] -> Forall (fun x => 0 <= x) l ->
  exists a b : Q,
    PyLib.mean l = inr a /\ PyLib.max l = inr b /\ 0 <= a /\ a <= b.
Proof.
  intros Hne Hpos. destruct l as [|x l]; [contradiction|].
  unfold PyLib.mean, PyLib.max.
  set (b := fold_left (fun maxval item => if ltb maxval item then item else maxval) l x).
  set (n := inject_Z (Z.of_nat (length (x :: l)))).
  exists (fold_left Qplus (x :: l) 0 / n), b.
  split; [reflexivity|]. split; [reflexivity|].
  assert (Hn : 0 < n).
  { unfold n. change 0 with (inject_Z 0). rewrite <- Zlt_Qlt. cbn [length]. lia. }
  destruct (max_fold_ge l x) as [Hx Hl]. fold b in Hx, Hl.
  assert (Hall : Forall (fun y => 0 <= y /\ y <= b) (x :: l)).
  { inversion Hpos as [|? ? Hx0 Hl0]; subst. constructor; [split; lra|].
    rewrite Forall_forall in *. intros y Hy. split; [now apply Hl0 | now apply Hl]. }
  destruct (sum_bounds b (x :: l) 0 Hall) as [Lo Hi]. fold n in Hi.
  split.
  - apply Qle_shift_div_l; [exact Hn | lra].
  - apply Qle_shift_div_r; [exact Hn | lra].
Qed.

Lemma mean_raises (l : list Q) :
  PyLib.mean l = inl PyLib.StatisticsError <-> l = [].
Proof.
  destruct l as [|x l]; cbn; split; intro H; (reflexivity || discriminate H).
Qed.

Lemma insert_desc_perm {A : Type} (key : A -> Q) (x : A) (l : list A) :
  Permutation (x :: l) (PyLib.insert_desc key x l).
Proof.
  induction l as [|y l IH]; cbn [PyLib.insert_desc]; [reflexivity|].
  destruct (ltb (key x) (key y)); [|reflexivity].
  rewrite perm_swap. now constructor.
Qed.

Lemma insert_desc_sorted {A : Type} (key : A -> Q) (x : A) (l : list A) :
  StronglySorted (fun a b => key b <= key a) l ->
  StronglySorted (fun a b => key b <= key a) (PyLib.insert_desc key x l).
Proof.
  induction 1 as [|y l Hl IH Hy]; cbn [PyLib.insert_desc].
  - repeat constructor.
  - destruct (ltb_spec (key x) (key y)) as [Lt | Ge].
    + constructor; [exact IH|].
      apply (Permutation_Forall (insert_desc_perm key x l)).
      constructor; [lra | exact Hy].
    + constructor; [now constructor|].
      constructor; [lra|].
      rewrite Forall_forall in *. intros z Hz. specialize (Hy z Hz).
      cbv beta in *. lra.
Qed.

Lemma sort_desc_perm {A : Type} (key : A -> Q) (l : list A) :
  Permutation l (PyLib.sort_desc key l).
Proof.
  induction l as [|x l IH]; cbn; [constructor|].
  etransitivity; [|apply insert_desc_perm]. now constructor.
Qed.

Lemma sort_desc_sorted {A : Type} (key : A -> Q) (l : list A) :
  StronglySorted (fun a b => key b <= key a) (PyLib.sort_desc key l).
Proof.
  induction l as [|x l IH]; cbn; [constructor|].
  now apply insert_desc_sorted.
Qed.

(** The sort is stable: among items of equal key the first stays first. *)
Lemma insert_desc_head {A : Type} (key : A -> Q) (x : A) (l : list A) :
  Forall (fun y => key y <= key x) l -> PyLib.insert_desc key x l = x :: l.
Proof.
  intro H. destruct l as [|y l]; [reflexivity|]. cbn [PyLib.insert_desc].
  inversion H; subst. now rewrite ltb_false.
Qed.

End Library.

(** ** What the scripts return or raise *)

Section HarnessOutcome.

Variable Str : Type.
Variable format_input : Z -> Q -> Q -> Str.
Variable test_original_solution : Z -> Q -> Q -> option Q.
Variable test_improved_solution : Z -> Q -> Q -> option Q.

Local Abbreviation loop :=
  (TestImprovements.loop format_input test_original_solution test_improved_solution).
Local Abbreviation tested :=
  (TestImprovements.tested test_original_solution test_improved_solution).
Local Abbreviation compare_solutions :=
  (TestImprovements.compare_solutions format_input test_original_solution
     test_improved_solution).

(** X16.  When no case gets a value from both engines (an empty corpus, or an
    engine that fails on every case) [compare_solutions] raises the
    [StatisticsError] of [statistics.mean]. *)
Theorem compare_solutions_raises (data : list test_case) :
  filter tested data = [] ->
  compare_solutions data = inl PyLib.StatisticsError.
Proof.
  intro H. unfold TestImprovements.compare_solutions.
  pose proof (loop_tested_count Str format_input test_original_solution
                test_improved_solution data 0 TestImprovements.init) as L.
  rewrite H in L. cbn in L.
  destruct (TestImprovements.original_errors (loop 0 data TestImprovements.init));
    [reflexivity | discriminate L].
Qed.

(** X17.  When at least one case gets a value from both engines
    [compare_solutions] raises nothing: it reports the number of such cases,
    a number of unchanged cases that is not negative, average errors between
    zero and the maximal errors, and at most five sample comparisons. *)
Theorem compare_solutions_returns (data : list test_case) :
  filter tested data <> [] ->
  exists s : TestImprovements.summary Str,
    compare_solutions data = inr s
    /\ TestImprovements.cases_tested s = Z.of_nat (length (filter tested data))
    /\ (0 < TestImprovements.cases_tested s)%Z
    /\ (0 <= TestImprovements.no_change s)%Z
    /\ 0 <= TestImprovements.original_avg s
    /\ TestImprovements.original_avg s <= TestImprovements.original_max s
    /\ 0 <= TestImprovements.improved_avg s
    /\ TestImprovements.improved_avg s <= TestImprovements.improved_max s
    /\ (length (TestImprovements.shown s) <= 5)%nat.
Proof.
  intro H. unfold TestImprovements.compare_solutions.
  set (st := loop 0 data TestImprovements.init).
  assert (I : TestImprovements.loop_invariant (Z.of_nat (length data)) st).
  { apply loop_keeps_invariant; [lia | lia | apply init_invariant]. }
  destruct I as (Hlen & Himp & Hdeg & Hsum & _ & _ & Ho & Hn).
  assert (C : length (TestImprovements.original_errors st)
              = length (filter tested data)).
  { unfold st. rewrite loop_tested_count. reflexivity. }
  assert (P : (0 < length (filter tested data))%nat).
  { destruct (filter tested data); [contradiction | cbn; lia]. }
  assert (No : TestImprovements.original_errors st <> []).
  { intro E. rewrite E in C. cbn in C. lia. }
  assert (Ni : TestImprovements.improved_errors st <> []).
  { intro E. rewrite E in Hlen. cbn in Hlen. lia. }
  destruct (mean_le_max _ No Ho) as (a & b & -> & -> & Ha & Hab).
  destruct (mean_le_max _ Ni Hn) as (a' & b' & -> & -> & Ha' & Hab').
  eexists. split; [reflexivity|].
  cbn [TestImprovements.cases_tested TestImprovements.no_change
       TestImprovements.original_avg TestImprovements.original_max
       TestImprovements.improved_avg TestImprovements.improved_max
       TestImprovements.shown].
  repeat split; try assumption; try lia.
  apply firstn_le_length.
Qed.

End HarnessOutcome.

Lemma compare_solutions_raises_witness :
  TestImprovements.compare_solutions (fun _ _ _ => tt)
    (fun _ _ _ => None) engine_improved sample_corpus
  = inl PyLib.StatisticsError.
Proof.
  apply (compare_solutions_raises unit (fun _ _ _ => tt)
           (fun _ _ _ => None) engine_improved sample_corpus).
  reflexivity.
Defined.

Lemma compare_solutions_returns_witness :
  exists s : TestImprovements.summary unit,
    TestImprovements.compare_solutions (fun _ _ _ => tt)
      engine_original engine_improved sample_corpus = inr s
    /\ TestImprovements.cases_tested s
       = Z.of_nat (length (filter
           (TestImprovements.tested engine_original engine_improved) sample_corpus))
    /\ (0 < TestImprovements.cases_tested s)%Z
    /\ (0 <= TestImprovements.no_change s)%Z
    /\ 0 <= TestImprovements.original_avg s
    /\ TestImprovements.original_avg s <= TestImprovements.original_max s
    /\ 0 <= TestImprovements.improved_avg s
    /\ TestImprovements.improved_avg s <= TestImprovements.improved_max s
    /\ (length (TestImprovements.shown s) <= 5)%nat.
Proof.
  apply (compare_solutions_returns unit (fun _ _ _ => tt)
           engine_original engine_improved sample_corpus).
  vm_compute. discriminate.
Defined.

Section ErrorAnalysis.

Import FinalAnalysis.

Lemma error_loop_spec (n : Z) (data : list test_case) :
  forall (i : Z) (errors : list Q) (large_errors : list large_error),
    (0 <= i)%Z -> (i + Z.of_nat (length data) <= n)%Z ->
    Forall (large_error_ok n) large_errors ->
    length (fst (error_loop i data errors large_errors))
    = (length errors + length data)%nat
    /\ Forall (large_error_ok n) (snd (error_loop i data errors large_errors))
    /\ (length (snd (error_loop i data errors large_errors))
        <= length large_errors + length data)%nat.
Proof.
  induction data as [|c rest IH]; intros i errors large_errors Hi Hn Hok;
    cbn [error_loop length] in *.
  - cbn. repeat split; [lia | exact Hok | lia].
  - cbv zeta.
    set (e := Qabs (current_formula (trip_duration_days c) (miles_traveled c)
                      (total_receipts_amount c) - expected_output c)).
    destruct (ltb_spec 200 e) as [Hl | Hl].
    + edestruct (IH (i + 1)%Z (errors ++ [e])) as (A & B & C);
        [lia | lia | | rewrite A; rewrite length_app in *; cbn [length] in *;
                       repeat split; [lia | exact B | rewrite C; lia]].
      apply Forall_app. split; [exact Hok|]. constructor; [|constructor].
      repeat split; cbn; try reflexivity; try lia. exact Hl.
    + edestruct (IH (i + 1)%Z (errors ++ [e]) large_errors) as (A & B & C);
        [lia | lia | exact Hok |].
      rewrite A, length_app. cbn [length]. repeat split; [lia | exact B | lia].
Qed.

End ErrorAnalysis.

(** X18.  [analyze_current_errors] raises the [StatisticsError] of
    [statistics.mean] exactly on an empty corpus. *)
Theorem analyze_current_errors_raises (data : list test_case) :
  FinalAnalysis.analyze_current_errors data = inl PyLib.StatisticsError
  <-> data = [].
Proof.
  unfold FinalAnalysis.analyze_current_errors.
  pose proof (error_loop_spec (Z.of_nat (length data)) data 0 [] []
                ltac:(lia) ltac:(lia) (Forall_nil _)) as (L & _ & _).
  destruct (FinalAnalysis.error_loop 0 data [] []) as [errors large_errors].
  cbn [fst length] in L.
  destruct data as [|c rest]; destruct errors as [|e errors];
    cbn in L; try discriminate L; cbn; split; intro H;
    (reflexivity || discriminate H).
Qed.

Section ErrorEntries.

Import FinalAnalysis.

(** What the loop of [analyze_current_errors] has put in [large_errors]
    after the cases [pre] of the corpus [data]. *)
Lemma error_loop_entries (data rest : list test_case) :
  forall (pre : list test_case) (errors : list Q)
         (large_errors : list large_error),
    data = pre ++ rest ->
    Forall (large_error_of data) large_errors ->
    length large_errors = length (filter is_large pre) ->
    (forall (j : nat) (c : test_case),
       nth_error pre j = Some c -> is_large c = true ->
       exists x : large_error, In x large_errors /\ case_num x = Z.of_nat j) ->
    let l := snd (error_loop (Z.of_nat (length pre)) rest errors large_errors) in
    Forall (large_error_of data) l
    /\ length l = length (filter is_large data)
    /\ (forall (j : nat) (c : test_case),
          nth_error data j = Some c -> is_large c = true ->
          exists x : large_error, In x l /\ case_num x = Z.of_nat j).
Proof.
  induction rest as [|c rest IH]; intros pre errors large_errors Hd Hok Hlen Hall.
  - cbn [error_loop snd]. rewrite app_nil_r in Hd. subst data.
    split; [exact Hok|]. split; [exact Hlen | exact Hall].
  - cbn [error_loop]. cbv zeta.
    replace (Z.of_nat (length pre) + 1)%Z with (Z.of_nat (length (pre ++ [c])))
      by (rewrite length_app; cbn [length]; lia).
    fold (is_large c).
    assert (Hd' : data = (pre ++ [c]) ++ rest)
      by (rewrite <- app_assoc; exact Hd).
    apply IH; [exact Hd' | | |].
    + destruct (is_large c) eqn:L; [|exact Hok].
      apply Forall_app. split; [exact Hok|]. constructor; [|constructor].
      exists c. cbn. split; [lia|].
      split; [rewrite Hd; apply nth_error_middle|].
      repeat split. exact (proj2 (reflect_iff _ _ (ltb_spec _ _)) L).
    + rewrite filter_app, length_app. cbn [filter].
      destruct (is_large c); [rewrite length_app|]; cbn [length]; lia.
    + intros j c' Hj Hl.
      destruct (Nat.lt_ge_cases j (length pre)) as [Lt | Ge].
      * rewrite nth_error_app1 in Hj by exact Lt.
        destruct (Hall j c' Hj Hl) as (x & Hx & Hc).
        exists x. split; [|exact Hc].
        destruct (is_large c); [apply in_or_app; now left | exact Hx].
      * rewrite nth_error_app2 in Hj by exact Ge.
        destruct (j - length pre)%nat as [|n] eqn:En;
          [|destruct n; discriminate Hj].
        injection Hj as <-. rewrite Hl.
        eexists. split; [apply in_or_app; right; left; reflexivity|].
        cbn. lia.
Qed.

End ErrorEntries.

(** X19.  On a corpus that is not empty [analyze_current_errors] returns a
    list in descending order of error with exactly one entry for every case
    whose absolute error under [current_formula] exceeds 200: every entry
    records the inputs, the expected output, the prediction and the error of
    the case of the corpus at its index [case_num], every such case has an
    entry with its index, and there are as many entries as such cases. *)
Theorem analyze_current_errors_sorted (data : list test_case) :
  data <> [] ->
  exists l : list FinalAnalysis.large_error,
    FinalAnalysis.analyze_current_errors data = inr l
    /\ StronglySorted
         (fun a b => FinalAnalysis.error b <= FinalAnalysis.error a) l
    /\ Forall (FinalAnalysis.large_error_of data) l
    /\ length l = length (filter FinalAnalysis.is_large data)
    /\ forall (j : nat) (c : test_case),
         nth_error data j = Some c ->
         FinalAnalysis.is_large c = true ->
         exists x : FinalAnalysis.large_error,
           In x l /\ FinalAnalysis.case_num x = Z.of_nat j.
Proof.
  intro Hne. unfold FinalAnalysis.analyze_current_errors.
  pose proof (error_loop_spec (Z.of_nat (length data)) data 0 [] []
                ltac:(lia) ltac:(lia) (Forall_nil _)) as (L & _ & _).
  pose proof (error_loop_entries data data [] [] [] eq_refl (Forall_nil _)
                eq_refl) as S.
  cbn [length Z.of_nat] in S.
  destruct S as (Hok & Hlen & Hall).
  { intros j c Hj. destruct j; discriminate Hj. }
  destruct (FinalAnalysis.error_loop 0 data [] []) as [errors large_errors].
  cbn [fst snd length] in *.
  destruct errors as [|e errors];
    [destruct data; [contradiction | discriminate L]|].
  cbn [PyLib.mean].
  pose proof (sort_desc_perm FinalAnalysis.error large_errors) as P.
  eexists. split; [reflexivity|].
  split; [apply sort_desc_sorted|].
  split; [exact (Permutation_Forall P Hok)|].
  split; [rewrite <- (Permutation_length P); exact Hlen|].
  intros j c Hj Hl. destruct (Hall j c Hj Hl) as (x & Hx & Hc).
  exists x. split; [exact (Permutation_in x P Hx) | exact Hc].
Qed.

Lemma analyze_current_errors_sorted_witness :
  exists l : list FinalAnalysis.large_error,
    FinalAnalysis.analyze_current_errors sample_corpus = inr l
    /\ StronglySorted
         (fun a b => FinalAnalysis.error b <= FinalAnalysis.error a) l
    /\ Forall (FinalAnalysis.large_error_of sample_corpus) l
    /\ length l = length (filter FinalAnalysis.is_large sample_corpus)
    /\ forall (j : nat) (c : test_case),
         nth_error sample_corpus j = Some c ->
         FinalAnalysis.is_large c = true ->
         exists x : FinalAnalysis.large_error,
           In x l /\ FinalAnalysis.case_num x = Z.of_nat j.
Proof.
  apply (analyze_current_errors_sorted sample_corpus). discriminate.
Defined.

Example analyze_current_errors_sample :
  exists x y : FinalAnalysis.large_error,
    FinalAnalysis.analyze_current_errors sample_corpus = inr [x; y]
    /\ FinalAnalysis.case_num x = 2%Z /\ FinalAnalysis.error x == 860
    /\ FinalAnalysis.case_num y = 0%Z /\ FinalAnalysis.error y == 795.5.
Proof. do 2 eexists. repeat split; vm_compute; reflexivity. Qed.

(** ** The baseline engine has no floor *)

Lemma baseline_multiplier_default (d : Z) :
  (d < 1 \/ 14 < d)%Z -> Baseline.receipt_multiplier d = -0.1.
Proof.
  intro H. unfold Baseline.receipt_multiplier, Baseline.multipliers.
  cbn [dict_get].
  repeat (match goal with
          | |- context [(?k =? d)%Z] => destruct (Z.eqb_spec k d); [lia|]
          end).
  reflexivity.
Qed.

(** X20.  The baseline engine can return a negative amount.  For a duration
    of more than 14 days, at most 600 miles per day and receipts of at least
    1500, the result is negative as soon as a tenth of the capped receipts
    exceeds the base by more than a cent. *)
Theorem baseline_negative_result (d : Z) (m r : Q) :
  (14 < d)%Z -> m <= inject_Z (600 * d) -> 1500 <= r ->
  inject_Z (d * 120) + m * 0.4 + 0.01 < 0.1 * (1500 + (r - 1500) * 0.3) ->
  exists v : Q, Baseline.calculate_reimbursement d m r = Ok v /\ v < 0.
Proof.
  intros Hd Hm Hr Hbig. unfold Baseline.calculate_reimbursement.
  rewrite baseline_base_pos, miles_per_day_test by lia.
  rewrite (ltb_false _ _ Hm). cbn [bind].
  eexists. split; [reflexivity|].
  match goal with |- round2 ?t < 0 =>
    pose proof (round2_close t) as [_ Hround]; set (x := t) in *
  end.
  assert (Hx : x < -0.01).
  { unfold x, Baseline.long_trip_adjustment.
    assert (F : ltb r 500 = false) by (apply ltb_false; lra).
    rewrite F, andb_false_r.
    unfold Baseline.receipt_contribution.
    rewrite baseline_multiplier_default by lia.
    unfold Baseline.capped_receipts. cbv zeta.
    destruct (ltb_spec 1500 r); lra. }
  lra.
Qed.

(** Fifteen days, no miles, receipts of 100000: the result is -1305. *)
Lemma baseline_negative_result_witness :
  exists v : Q, Baseline.calculate_reimbursement 15 0 100000 = Ok v /\ v < 0.
Proof.
  apply (baseline_negative_result 15 0 100000);
    [lia | apply Qle_bool_imp_le; reflexivity | lra | reflexivity].
Defined.

Example baseline_negative_value :
  Baseline.calculate_reimbursement 15 0 100000 = Ok (-1305.00).
Proof. vm_compute. reflexivity. Qed.

(** ** Rounding to binary64 *)

Section Binary64.

Lemma pow2_pos (e : Z) : 0 < 2 ^ e.
Proof. apply Qpower_0_lt. reflexivity. Qed.

Lemma pow2_le (i j : Z) : (i <= j)%Z -> 2 ^ i <= 2 ^ j.
Proof. intro H. apply Qpower_le_compat_l; [exact H | discriminate]. Qed.

Lemma pow2_lt (i j : Z) : (i < j)%Z -> 2 ^ i < 2 ^ j.
Proof. intro H. apply Qpower_lt_compat_l; [exact H | reflexivity]. Qed.

Lemma pow2_plus (i j : Z) : 2 ^ (i + j) == 2 ^ i * 2 ^ j.
Proof. apply Qpower_plus. discriminate. Qed.

Lemma pow2_Z (n : Z) : (0 <= n)%Z -> inject_Z (2 ^ n) == 2 ^ n.
Proof. intro H. apply (Zpower_Qpower 2 n H). Qed.

Lemma pow2_double (k : Z) : 2 ^ (k + 1) == 2 * 2 ^ k.
Proof. rewrite pow2_plus. change (2 ^ 1) with 2. ring. Qed.

(** Rounding to the nearest integer does not cross a whole number. *)
Lemma round_half_even_le_Z (x : Q) (n : Z) :
  x <= inject_Z n -> (round_half_even x <= n)%Z.
Proof.
  intro H. pose proof (round_half_even_close x) as [_ Hi].
  assert (L : inject_Z (round_half_even x) < inject_Z (n + 1)).
  { rewrite inject_Z_plus. change (inject_Z 1) with 1. lra. }
  rewrite <- Zlt_Qlt in L. lia.
Qed.

Lemma round_half_even_ge_Z (x : Q) (n : Z) :
  inject_Z n <= x -> (n <= round_half_even x)%Z.
Proof.
  intro H. pose proof (round_half_even_close x) as [Lo _].
  assert (L : inject_Z (n - 1) < inject_Z (round_half_even x)).
  { unfold Z.sub. rewrite inject_Z_plus, inject_Z_opp.
    change (inject_Z 1) with 1. lra. }
  rewrite <- Zlt_Qlt in L. lia.
Qed.

(** The exponent of the unit in the last place does not exceed the exponent
    of a power of two that bounds the value. *)
Lemma ilog2_le (a : Q) (k : Z) :
  (-1100 <= k)%Z -> a <= 2 ^ k -> (F64.ilog2 a <= k)%Z.
Proof.
  intros Hk Ha. unfold F64.ilog2.
  assert (B : inject_Z (Qfloor (a * 2 ^ 1100)) <= inject_Z (2 ^ (k + 1100))).
  { pose proof (Qfloor_le (a * 2 ^ 1100)) as Fl.
    rewrite pow2_Z by lia. rewrite pow2_plus.
    pose proof (pow2_pos 1100) as P. nra. }
  rewrite <- Zle_Qle in B.
  apply Z.log2_le_mono in B. rewrite Z.log2_pow2 in B by lia. lia.
Qed.

(** The unit in the last place of a value of at least one is at most the
    value. *)
Lemma ulp_le (a : Q) :
  1 <= a -> 2 ^ Z.max (F64.ilog2 a - 52) (-1074) <= a.
Proof.
  intro Ha. apply Z.max_case_strong; intros _.
  - unfold F64.ilog2.
    set (F := Qfloor (a * 2 ^ 1100)).
    assert (HF : (2 ^ 1100 <= F)%Z).
    { unfold F. rewrite <- (Qfloor_Z (2 ^ 1100)). apply Qfloor_resp_le.
      rewrite pow2_Z by lia. pose proof (pow2_pos 1100). nra. }
    assert (F0 : (0 < F)%Z) by (pose proof (Z.pow_pos_nonneg 2 1100); lia).
    destruct (Z.log2_spec F F0) as [Lo _].
    assert (L0 : (0 <= Z.log2 F)%Z) by apply Z.log2_nonneg.
    rewrite Zle_Qle, pow2_Z in Lo by exact L0.
    pose proof (Qfloor_le (a * 2 ^ 1100)) as Fl. fold F in Fl.
    replace (Z.log2 F - 1100 - 52)%Z with (Z.log2 F + (-1152))%Z by lia.
    rewrite pow2_plus.
    assert (E : 2 ^ Z.log2 F <= a * 2 ^ 1100) by lra.
    assert (S : 2 ^ (-1152) * 2 ^ 1100 <= 1) by discriminate.
    pose proof (pow2_pos 1100). pose proof (pow2_pos (Z.log2 F)).
    pose proof (pow2_pos (-1152)). nra.
  - assert (S : 2 ^ (-1074) <= 1) by discriminate. lra.
Qed.

End Binary64.

Section Binary64Rounding.

(** A value of magnitude at most [2 ^ k] rounds to a finite float of
    magnitude at most [2 ^ k] and of the same sign. *)
Lemma rnd_fin (q : Q) (k : Z) :
  (-1074 <= k <= 1023)%Z -> Qabs q <= 2 ^ k ->
  exists q' : Q,
    F64.rnd q = F64.Fin q'
    /\ Qabs q' <= 2 ^ k
    /\ (0 <= q -> 0 <= q')
    /\ (q <= 0 -> q' <= 0).
Proof.
  intros Hk Hq. unfold F64.rnd. cbv zeta.
  set (a := Qabs q) in *.
  set (e := Z.max (F64.ilog2 a - 52) (-1074)).
  set (m := round_half_even (a / 2 ^ e)).
  assert (Ha : 0 <= a) by apply Qabs_nonneg.
  assert (He : (e <= k)%Z).
  { unfold e. pose proof (ilog2_le a k ltac:(lia) Hq). lia. }
  pose proof (pow2_pos e) as Pe.
  assert (Hx : 0 <= a / 2 ^ e).
  { apply Qle_shift_div_l; [exact Pe | lra]. }
  assert (Hm0 : (0 <= m)%Z) by (apply round_half_even_ge_Z; exact Hx).
  assert (Hm : (m <= 2 ^ (k - e))%Z).
  { apply round_half_even_le_Z. rewrite pow2_Z by lia.
    apply Qle_shift_div_r; [exact Pe|].
    rewrite <- (pow2_plus (k - e) e). now replace (k - e + e)%Z with k by lia. }
  assert (Hv : 0 <= inject_Z m * 2 ^ e /\ inject_Z m * 2 ^ e <= 2 ^ k).
  { rewrite Zle_Qle in Hm0, Hm. rewrite pow2_Z in Hm by lia.
    change (inject_Z 0) with 0 in Hm0. split; [nra|].
    assert (E : 2 ^ k == 2 ^ (k - e) * 2 ^ e).
    { rewrite <- (pow2_plus (k - e) e).
      replace (k - e + e)%Z with k by lia. reflexivity. }
    pose proof (pow2_pos (k - e)). nra. }
  destruct Hv as [V0 Vk].
  set (v := Qred (inject_Z m * 2 ^ e)).
  assert (Ev : v == inject_Z m * 2 ^ e) by apply Qred_correct.
  assert (Big : Qle_bool (2 ^ 1024) v = false).
  { destruct (Qle_bool (2 ^ 1024) v) eqn:E; [|reflexivity].
    apply Qle_bool_iff in E. pose proof (pow2_lt k 1024 ltac:(lia)). lra. }
  rewrite Big.
  destruct (ltb_spec q 0) as [N | N].
  - exists (- v). split; [reflexivity|]. rewrite Qabs_opp, Qabs_pos by lra.
    repeat split; intros; lra.
  - exists v. split; [reflexivity|]. rewrite Qabs_pos by lra.
    split; [lra|]. split; [intros; lra|].
    intro Z0. assert (Q0 : q == 0) by lra.
    assert (A0 : a == 0) by (unfold a; rewrite Q0; reflexivity).
    assert (M0 : (m <= 0)%Z).
    { apply round_half_even_le_Z. change (inject_Z 0) with 0.
      apply Qle_shift_div_r; [exact Pe | lra]. }
    assert (M : m = 0%Z) by lia. rewrite M in Ev.
    change (inject_Z 0) with 0 in Ev. lra.
Qed.

(** A value of magnitude at least one does not round to zero. *)
Lemma rnd_not_zero (q : Q) : 1 <= Qabs q -> F64.is_zero (F64.rnd q) = false.
Proof.
  intro Hq. unfold F64.rnd. cbv zeta.
  set (a := Qabs q) in *.
  set (e := Z.max (F64.ilog2 a - 52) (-1074)).
  set (m := round_half_even (a / 2 ^ e)).
  destruct (Qle_bool _ _); [reflexivity|]. cbn [F64.is_zero].
  pose proof (pow2_pos e) as Pe.
  assert (Hm : (1 <= m)%Z).
  { apply round_half_even_ge_Z. change (inject_Z 1) with 1.
    apply Qle_shift_div_l; [exact Pe|]. pose proof (ulp_le a Hq). fold e in H. lra. }
  set (v := Qred (inject_Z m * 2 ^ e)).
  assert (Ev : v == inject_Z m * 2 ^ e) by apply Qred_correct.
  assert (Vp : 0 < v).
  { rewrite Zle_Qle in Hm. change (inject_Z 1) with 1 in Hm. nra. }
  destruct (ltb q 0); apply not_true_is_false; intro E;
    apply Qeq_bool_eq in E; lra.
Qed.

End Binary64Rounding.

Section Binary64Operations.

Lemma fin_le_weaken (j k : Z) (x : F64.float) :
  (j <= k)%Z -> F64.fin_le j x -> F64.fin_le k x.
Proof.
  intros H (q & -> & B). exists q. split; [reflexivity|].
  pose proof (pow2_le j k H). lra.
Qed.

Lemma fin_le_rnd (q : Q) (k : Z) :
  (-1074 <= k <= 1023)%Z -> Qabs q <= 2 ^ k -> F64.fin_le k (F64.rnd q).
Proof.
  intros Hk Hq. destruct (rnd_fin q k Hk Hq) as (q' & E & B & _).
  exists q'. now split.
Qed.

Lemma fin_le_neg (k : Z) (x : F64.float) :
  F64.fin_le k x -> F64.fin_le k (F64.neg x).
Proof.
  intros (q & -> & B). exists (- q). split; [reflexivity|].
  now rewrite Qabs_opp.
Qed.

Lemma fin_le_add (k : Z) (x y : F64.float) :
  (-1074 <= k < 1023)%Z ->
  F64.fin_le k x -> F64.fin_le k y -> F64.fin_le (k + 1) (F64.add x y).
Proof.
  intros Hk (a & -> & A) (b & -> & B). cbn [F64.add].
  apply fin_le_rnd; [lia|].
  pose proof (Qabs_triangle a b). rewrite pow2_double. lra.
Qed.

Lemma fin_le_sub (k : Z) (x y : F64.float) :
  (-1074 <= k < 1023)%Z ->
  F64.fin_le k x -> F64.fin_le k y -> F64.fin_le (k + 1) (F64.sub x y).
Proof.
  intros Hk X Y. unfold F64.sub. apply fin_le_add; [exact Hk | exact X|].
  now apply fin_le_neg.
Qed.

Lemma fin_le_mul (j k : Z) (x y : F64.float) :
  (-1074 <= j + k <= 1023)%Z ->
  F64.fin_le j x -> F64.fin_le k y -> F64.fin_le (j + k) (F64.mul x y).
Proof.
  intros Hk (a & -> & A) (b & -> & B). cbn [F64.mul].
  apply fin_le_rnd; [exact Hk|].
  rewrite Qabs_Qmult, pow2_plus.
  pose proof (Qabs_nonneg a). pose proof (Qabs_nonneg b).
  pose proof (pow2_pos j). pose proof (pow2_pos k). nra.
Qed.

(** An [int] of magnitude at most [2 ^ k] converts without overflow. *)
Lemma float_of_int_fin (n k : Z) :
  (0 <= k <= 1023)%Z -> (Z.abs n <= 2 ^ k)%Z ->
  exists x : F64.float, F64.float_of_int n = F64.Ok x /\ F64.fin_le k x.
Proof.
  intros Hk Hn. unfold F64.float_of_int.
  assert (B : Qabs (inject_Z n) <= 2 ^ k).
  { rewrite <- pow2_Z by lia.
    assert (E : Qabs (inject_Z n) == inject_Z (Z.abs n)).
    { unfold inject_Z. symmetry. apply Zabs_Qabs. }
    rewrite E. now rewrite <- Zle_Qle. }
  destruct (rnd_fin (inject_Z n) k ltac:(lia) B) as (q & E & Bq & _).
  rewrite E. exists (F64.Fin q). split; [reflexivity|]. exists q. now split.
Qed.

Lemma fin_le_Fin (k : Z) (x : F64.float) :
  F64.fin_le k x -> exists q : Q, x = F64.Fin q.
Proof. intros (q & -> & _). now exists q. Qed.

End Binary64Operations.

(** A literal of magnitude at most [2 ^ k]. *)
Ltac fin_lit k :=
  apply (fin_le_rnd _ k); [lia | apply Qle_bool_imp_le; vm_compute; reflexivity].

(** ** The engine returns for inputs of bounded magnitude *)

Section Binary64Engine.

Lemma dict_get_Forall {V : Type} (P : V -> Prop) (dict : list (Z * V))
    (key : Z) (default : V) :
  Forall (fun kv => P (snd kv)) dict -> P default ->
  P (dict_get dict key default).
Proof.
  intros H Hd. induction H as [|[k v] rest Hv _ IH]; cbn [dict_get];
    [exact Hd|]. destruct (k =? key)%Z; [exact Hv | exact IH].
Qed.

Lemma f64_multiplier_le (d : Z) :
  F64.fin_le 0 (dict_get F64.multipliers d (F64.lit (-0.08))).
Proof.
  apply dict_get_Forall; [|fin_lit 0%Z].
  unfold F64.multipliers. repeat constructor; cbn [snd]; fin_lit 0%Z.
Qed.

Lemma pow2_1000_facts :
  (2 ^ 1003 = 8 * 2 ^ 1000 /\ 2 ^ 1007 = 128 * 2 ^ 1000 /\ 0 < 2 ^ 1000)%Z.
Proof. repeat split. Qed.

Lemma f64_base_returns (d : Z) (m : F64.float) :
  (0 <= d <= 2 ^ 1000)%Z -> F64.fin_le 1000 m ->
  exists b : F64.float,
    F64.base_reimbursement d m = F64.Ok b /\ F64.fin_le 1009 b.
Proof.
  intros Hd Hm. unfold F64.base_reimbursement.
  destruct (float_of_int_fin (d * 115) 1007 ltac:(lia)) as (x & -> & Hx).
  { destruct pow2_1000_facts as (_ & E & _). rewrite E. lia. }
  cbn [F64.bind]. cbv zeta.
  assert (H42 : F64.fin_le 1007 (F64.mul m (F64.lit 0.42))).
  { apply (fin_le_weaken (1000 + 0)); [lia|].
    apply fin_le_mul; [lia | exact Hm | fin_lit 0%Z]. }
  assert (Hb : F64.fin_le 1008 (F64.add x (F64.mul m (F64.lit 0.42)))).
  { apply (fin_le_add 1007); [lia | exact Hx | exact H42]. }
  assert (Hex : forall c p, F64.fin_le 10 (F64.lit c) -> F64.fin_le 0 (F64.lit p) ->
            F64.fin_le 1008 (F64.mul (F64.sub m (F64.lit c)) (F64.lit p))).
  { intros c p Hc Hp. apply (fin_le_weaken (1001 + 0)); [lia|].
    apply fin_le_mul; [lia | | exact Hp].
    apply (fin_le_sub 1000); [lia | exact Hm|].
    apply (fin_le_weaken 10); [lia | exact Hc]. }
  destruct (F64.ltb (F64.lit 800) m).
  - eexists. split; [reflexivity|]. apply (fin_le_sub 1008); [lia | exact Hb|].
    apply Hex; [fin_lit 10%Z | fin_lit 0%Z].
  - destruct (F64.ltb (F64.lit 400) m).
    + eexists. split; [reflexivity|]. apply (fin_le_sub 1008); [lia | exact Hb|].
      apply Hex; [fin_lit 10%Z | fin_lit 0%Z].
    + eexists. split; [reflexivity|]. apply (fin_le_weaken 1008); [lia | exact Hb].
Qed.

Lemma f64_receipt_contribution_le (d : Z) (r : F64.float) :
  F64.fin_le 1000 r -> F64.fin_le 1009 (F64.receipt_contribution d r).
Proof.
  intro Hr. unfold F64.receipt_contribution. cbv zeta.
  pose proof (f64_multiplier_le d) as Hk.
  set (k := dict_get F64.multipliers d (F64.lit (-0.08))) in *.
  assert (Hs : forall c, F64.fin_le 11 (F64.lit c) ->
            F64.fin_le 1001 (F64.sub r (F64.lit c))).
  { intros c Hc. apply (fin_le_sub 1000); [lia | exact Hr|].
    apply (fin_le_weaken 11); [lia | exact Hc]. }
  destruct (F64.ltb (F64.lit 2000) r).
  - apply (fin_le_weaken (1002 + 0)); [lia|].
    apply fin_le_mul; [lia | | exact Hk].
    apply (fin_le_add 1001); [lia | apply (fin_le_weaken 11); [lia | fin_lit 11%Z]|].
    apply (fin_le_mul 1001 0); [lia | apply Hs; fin_lit 11%Z | fin_lit 0%Z].
  - destruct (F64.ltb (F64.lit 1000) r).
    + apply (fin_le_weaken 1002); [lia|].
      apply (fin_le_add 1001); [lia | |].
      * apply (fin_le_weaken (11 + 0)); [lia|].
        apply fin_le_mul; [lia | fin_lit 11%Z | exact Hk].
      * apply (fin_le_mul 1001 0); [lia | | fin_lit 0%Z].
        apply (fin_le_mul 1001 0); [lia | apply Hs; fin_lit 11%Z | exact Hk].
    + apply (fin_le_weaken (1000 + 0)); [lia|].
      apply fin_le_mul; [lia | exact Hr | exact Hk].
Qed.

Lemma f64_efficiency_bonus_returns (d : Z) (m : F64.float) :
  (0 <= d <= 2 ^ 1000)%Z ->
  exists b : Z, F64.efficiency_bonus d m = F64.Ok b /\ (0 <= b <= 60)%Z.
Proof.
  intro Hd. unfold F64.efficiency_bonus.
  assert (S : exists b : Z,
             (if (0 <? d)%Z
              then F64.bind (F64.float_of_int d) (fun days =>
                   F64.bind (F64.truediv m days) (fun miles_per_day =>
                   if F64.leb (F64.lit 200) miles_per_day
                      && F64.leb miles_per_day (F64.lit 300)
                   then F64.Ok (Z.min (d * 8) 40) else F64.Ok 0%Z))
              else F64.Ok 0%Z) = F64.Ok b /\ (0 <= b <= 40)%Z).
  { destruct (Z.ltb_spec 0 d) as [P | P]; [|exists 0%Z; split; [reflexivity | lia]].
    unfold F64.float_of_int.
    assert (B : Qabs (inject_Z d) <= 2 ^ 1000).
    { rewrite <- pow2_Z by lia.
      assert (E : Qabs (inject_Z d) == inject_Z (Z.abs d)).
      { unfold inject_Z. symmetry. apply Zabs_Qabs. }
      rewrite E, <- Zle_Qle. lia. }
    destruct (rnd_fin (inject_Z d) 1000 ltac:(lia) B) as (q & E & _).
    assert (NZ : F64.is_zero (F64.rnd (inject_Z d)) = false).
    { apply rnd_not_zero.
      assert (E1 : Qabs (inject_Z d) == inject_Z (Z.abs d)).
      { unfold inject_Z. symmetry. apply Zabs_Qabs. }
      rewrite E1. change 1 with (inject_Z 1). rewrite <- Zle_Qle. lia. }
    rewrite E in *. cbn [F64.bind]. unfold F64.truediv. rewrite NZ.
    cbn [F64.bind]. destruct (_ && _); eexists; (split; [reflexivity | lia]). }
  destruct S as (b & -> & Hb). cbn [F64.bind].
  destruct (d =? 5)%Z; eexists; (split; [reflexivity | lia]).
Qed.

Lemma f64_int_fin (k : Z) (x : F64.float) :
  F64.fin_le k x -> exists n : Z, F64.int x = F64.Ok n.
Proof. intros (q & -> & _). now eexists. Qed.

Lemma f64_quarter_adjustment_returns (d : Z) (m r : F64.float) :
  (0 <= d <= 2 ^ 1000)%Z -> F64.fin_le 1000 m -> F64.fin_le 1000 r ->
  exists b : Z,
    F64.quarter_adjustment d m r = F64.Ok b /\ (0 <= b <= 2 ^ 1003)%Z.
Proof.
  intros Hd Hm Hr. unfold F64.quarter_adjustment.
  destruct pow2_1000_facts as (E3 & _ & P).
  destruct (3 <=? d)%Z; [|exists 0%Z; split; [reflexivity | lia]].
  destruct (f64_int_fin (1000 + 4) (F64.mul m (F64.lit 13))) as (a & ->).
  { apply fin_le_mul; [lia | exact Hm | fin_lit 4%Z]. }
  destruct (f64_int_fin (1000 + 3) (F64.mul r (F64.lit 7))) as (b & ->).
  { apply fin_le_mul; [lia | exact Hr | fin_lit 3%Z]. }
  cbn [F64.bind]. cbv zeta.
  destruct (_ <? 15)%Z; eexists; (split; [reflexivity | lia]).
Qed.

End Binary64Engine.

(** ** The cent value in binary64 *)

Section Binary64Cents.

(** The exact remainder of a division by 100 and its floor. *)
Lemma rem100_floor (x : Q) :
  0 <= x - 100 * inject_Z (Qfloor (x / 100))
  /\ x - 100 * inject_Z (Qfloor (x / 100)) < 100
  /\ Qfloor (x - 100 * inject_Z (Qfloor (x / 100))) = (Qfloor x mod 100)%Z.
Proof.
  set (q := Qfloor (x / 100)).
  assert (Hq : inject_Z q <= x / 100) by apply Qfloor_le.
  assert (Hq' : x / 100 < inject_Z (q + 1)) by apply Qlt_floor.
  rewrite inject_Z_plus in Hq'. change (inject_Z 1) with 1 in Hq'.
  assert (Ex : x == 100 * (x / 100)) by (field; lra).
  assert (Lo : 0 <= x - 100 * inject_Z q) by lra.
  assert (Hi : x - 100 * inject_Z q < 100) by lra.
  split; [exact Lo|]. split; [exact Hi|].
  pose proof (Qfloor_le x) as Fl. pose proof (Qlt_floor x) as Fh.
  rewrite inject_Z_plus in Fh. change (inject_Z 1) with 1 in Fh.
  assert (F : Qfloor (x - 100 * inject_Z q) = (Qfloor x - 100 * q)%Z).
  { apply Qfloor_unique; unfold Z.sub;
      rewrite !inject_Z_plus, inject_Z_opp, inject_Z_mult;
      change (inject_Z 100) with 100; change (inject_Z 1) with 1; lra. }
  rewrite F.
  assert (B : (0 <= Qfloor x - 100 * q < 100)%Z).
  { rewrite <- F. split.
    - rewrite <- (Qfloor_Z 0). now apply Qfloor_resp_le.
    - assert (G : inject_Z (Qfloor (x - 100 * inject_Z q)) < inject_Z 100).
      { pose proof (Qfloor_le (x - 100 * inject_Z q)).
        change (inject_Z 100) with 100. lra. }
      now rewrite <- Zlt_Qlt in G. }
  apply (Z.mod_unique _ _ q); [lia | lia].
Qed.

Lemma f64_lit_100 : F64.lit 100 = F64.Fin 100.
Proof. vm_compute. reflexivity. Qed.

(** [p % 100] followed by [int] on a finite product [p] that is not
    negative. *)
Lemma f64_rem_int (p : Q) :
  0 <= p ->
  F64.bind (F64.float_rem (F64.Fin p) (F64.Fin 100)) F64.int
  = F64.Ok (Qfloor p mod 100)%Z.
Proof.
  intro Hp. destruct (rem100_floor p) as (Lo & Hi & Fl).
  unfold F64.float_rem. change (F64.is_zero (F64.Fin 100)) with false.
  cbv iota. cbv zeta.
  assert (Ei : Py.int (p / 100) = Qfloor (p / 100)).
  { apply int_nonneg. apply Qle_shift_div_l; [reflexivity | lra]. }
  rewrite Ei.
  set (f := Qred (p - 100 * inject_Z (Qfloor (p / 100)))).
  assert (Ef : f == p - 100 * inject_Z (Qfloor (p / 100))) by apply Qred_correct.
  assert (Fi : Py.int f = (Qfloor p mod 100)%Z).
  { rewrite int_nonneg by lra. rewrite <- Fl. now apply Qfloor_comp. }
  destruct (Qeq_bool f 0) eqn:Z0.
  - apply Qeq_bool_eq in Z0. cbn [F64.bind F64.int]. f_equal.
    rewrite <- Fi. rewrite (int_nonneg f) by lra.
    rewrite (Qfloor_comp _ _ Z0). reflexivity.
  - change (ltb 100 0) with false. rewrite (ltb_false f 0) by lra.
    cbn [Bool.eqb F64.bind F64.int]. now rewrite Fi.
Qed.

Lemma f64_cents_product (a : F64.float) (p : Q) :
  F64.mul a (F64.lit 100) = F64.Fin p -> 0 <= p ->
  F64.cents a = F64.Ok (Qfloor p mod 100)%Z.
Proof.
  intros Hm Hp. unfold F64.cents. rewrite Hm, f64_lit_100.
  now apply f64_rem_int.
Qed.

(** The product of a non-negative amount of bounded magnitude with 100. *)
Lemma f64_product_100 (q : Q) :
  0 <= q -> q <= 2 ^ 1000 ->
  exists p : Q, F64.mul (F64.Fin q) (F64.lit 100) = F64.Fin p /\ 0 <= p.
Proof.
  intros H0 Hq. rewrite f64_lit_100. cbn [F64.mul].
  destruct (rnd_fin (q * 100) 1007 ltac:(lia)) as (p & E & _ & Hp & _).
  - rewrite Qabs_pos by lra.
    assert (S : 2 ^ 1007 == 128 * 2 ^ 1000) by reflexivity. lra.
  - exists p. split; [exact E | apply Hp; lra].
Qed.

End Binary64Cents.

Section Binary64Total.

(** Rounding keeps a value that is not negative not negative. *)
Lemma rnd_nonneg (q p : Q) : F64.rnd q = F64.Fin p -> 0 <= q -> 0 <= p.
Proof.
  unfold F64.rnd. cbv zeta. intros E Hq.
  set (a := Qabs q) in *.
  set (e := Z.max (F64.ilog2 a - 52) (-1074)) in *.
  set (m := round_half_even (a / 2 ^ e)) in *.
  pose proof (Qred_correct (inject_Z m * 2 ^ e)) as Ev.
  set (v := Qred (inject_Z m * 2 ^ e)) in *. clearbody v.
  destruct (Qle_bool _ _); [discriminate E|].
  rewrite (ltb_false q 0 Hq) in E. injection E as <-.
  pose proof (pow2_pos e) as Pe.
  assert (Hm : (0 <= m)%Z).
  { apply round_half_even_ge_Z. change (inject_Z 0) with 0.
    apply Qle_shift_div_l; [exact Pe|].
    assert (Ha : 0 <= a) by apply Qabs_nonneg. lra. }
  rewrite Zle_Qle in Hm. change (inject_Z 0) with 0 in Hm.
  assert (P : 0 <= inject_Z m * 2 ^ e) by nra. lra.
Qed.

Lemma f64_rounding_bonus_returns (q : Q) :
  0 <= q -> q <= 2 ^ 1000 ->
  exists b : Z,
    F64.rounding_bonus (F64.Fin q) = F64.Ok b /\ (b = 0 \/ b = 8 \/ b = 12)%Z.
Proof.
  intros H0 Hq. destruct (f64_product_100 q H0 Hq) as (p & Hm & Hp).
  unfold F64.rounding_bonus. rewrite (f64_cents_product _ p Hm Hp).
  cbn [F64.bind].
  destruct (_ =? 49)%Z; [eexists; split; [reflexivity | lia]|].
  destruct (_ =? 99)%Z; eexists; (split; [reflexivity | lia]).
Qed.

Lemma fin_le_of_bounds (q : Q) (k : Z) :
  0 <= q -> q <= 2 ^ k -> F64.fin_le k (F64.Fin q).
Proof.
  intros H0 Hq. exists q. split; [reflexivity|]. now rewrite Qabs_pos.
Qed.

Lemma f64_total_returns (d : Z) (qm qr : Q) :
  (0 <= d <= 2 ^ 1000)%Z ->
  0 <= qm -> qm <= 2 ^ 1000 -> 0 <= qr -> qr <= 2 ^ 1000 ->
  exists t : F64.float,
    F64.total_reimbursement d (F64.Fin qm) (F64.Fin qr) = F64.Ok t
    /\ F64.fin_le 1013 t.
Proof.
  intros Hd Hm0 Hm Hr0 Hr.
  pose proof (fin_le_of_bounds qm 1000 Hm0 Hm) as Fm.
  pose proof (fin_le_of_bounds qr 1000 Hr0 Hr) as Fr.
  unfold F64.total_reimbursement.
  destruct (f64_base_returns d _ Hd Fm) as (b & -> & Hb).
  destruct (f64_efficiency_bonus_returns d (F64.Fin qm) Hd) as (eb & -> & Heb).
  destruct (f64_quarter_adjustment_returns d _ _ Hd Fm Fr) as (qa & -> & Hqa).
  destruct (f64_rounding_bonus_returns qr Hr0 Hr) as (rb & -> & Hrb).
  cbn [F64.bind]. cbv zeta.
  destruct (float_of_int_fin eb 6 ltac:(lia)) as (x1 & -> & H1);
    [change (2 ^ 6)%Z with 64%Z; lia|].
  destruct (float_of_int_fin qa 1003 ltac:(lia)) as (x2 & -> & H2); [lia|].
  destruct (float_of_int_fin rb 4 ltac:(lia)) as (x3 & -> & H3);
    [change (2 ^ 4)%Z with 16%Z; lia|].
  cbn [F64.bind]. eexists. split; [reflexivity|].
  pose proof (f64_receipt_contribution_le d _ Fr) as Hrc.
  apply (fin_le_add 1012); [lia | | apply (fin_le_weaken 4); [lia | exact H3]].
  apply (fin_le_add 1011); [lia | | apply (fin_le_weaken 1003); [lia | exact H2]].
  apply (fin_le_add 1010); [lia | | apply (fin_le_weaken 6); [lia | exact H1]].
  apply (fin_le_add 1009); [lia | exact Hb | exact Hrc].
Qed.

(** [round(x, 2)] on a finite float of bounded magnitude: the rounding to
    binary64 of a whole number of cents, not negative when [x] is not. *)
Lemma f64_round2_returns (t : Q) :
  Qabs t <= 2 ^ 1013 ->
  exists (k : Z) (q : Q),
    F64.round2 (F64.Fin t) = F64.Ok (F64.Fin q)
    /\ F64.rnd (inject_Z k / 100) = F64.Fin q
    /\ k = round_half_even (t * 100)
    /\ (0 <= t -> 0 <= q).
Proof.
  intro Ht. unfold F64.round2.
  set (k := round_half_even (t * 100)).
  pose proof (round_half_even_close (t * 100)) as [Lo Hi]. fold k in Lo, Hi.
  assert (B : Qabs (inject_Z k / 100) <= 2 ^ 1014).
  { assert (E : inject_Z k / 100 == inject_Z k * (1 # 100)) by field.
    rewrite E. apply Qabs_Qle_condition in Ht. apply Qabs_Qle_condition.
    rewrite (pow2_double 1013). pose proof (pow2_pos 1013).
    assert (S : 1 <= 2 ^ 1013) by discriminate. split; lra. }
  destruct (rnd_fin _ 1014 ltac:(lia) B) as (q & E & _ & Hq & _).
  rewrite E. exists k, q. repeat split; try reflexivity; try exact E.
  intro T0. apply Hq.
  assert (K0 : (0 <= k)%Z).
  { apply round_half_even_ge_Z. change (inject_Z 0) with 0. lra. }
  rewrite Zle_Qle in K0. change (inject_Z 0) with 0 in K0.
  apply Qle_shift_div_l; [reflexivity | lra].
Qed.

(** The value the engine returns: the [int] floor, or a float that is the
    rounding to binary64 of a whole number of cents and is not negative. *)
Lemma f64_calculate_returns (d : Z) (qm qr : Q) :
  (0 <= d <= 2 ^ 1000)%Z ->
  0 <= qm -> qm <= 2 ^ 1000 -> 0 <= qr -> qr <= 2 ^ 1000 ->
  exists v : F64.num,
    F64.calculate_reimbursement d (F64.Fin qm) (F64.Fin qr) = F64.Ok v
    /\ (v = F64.Int (d * 85)
        \/ exists (k : Z) (q : Q),
             v = F64.Float (F64.Fin q)
             /\ F64.rnd (inject_Z k / 100) = F64.Fin q
             /\ 0 <= q).
Proof.
  intros Hd Hm0 Hm Hr0 Hr. unfold F64.calculate_reimbursement.
  destruct (f64_total_returns d qm qr Hd Hm0 Hm Hr0 Hr) as (t & -> & q & -> & Ht).
  cbn [F64.bind]. cbv zeta. cbn [F64.ltb].
  destruct (ltb_spec q (inject_Z (d * 85))) as [L | L].
  - eexists. split; [reflexivity | now left].
  - destruct (f64_round2_returns q Ht) as (k & q' & -> & E & _ & Hq).
    cbn [F64.bind]. eexists. split; [reflexivity|]. right.
    exists k, q'. repeat split; try exact E. apply Hq.
    assert (D : 0 <= inject_Z (d * 85))
      by (change 0 with (inject_Z 0); rewrite <- Zle_Qle; lia).
    lra.
Qed.

End Binary64Total.

(** ** The claims that depend on binary64 arithmetic *)

(** C2 (totality and determinism), as corrected.  For a duration from 1 to
    [2 ^ 1000] days and miles and receipts from 0 to [2 ^ 1000], the engine
    raises nothing and returns either the [int] floor [duration_days * 85]
    or a finite float that is the rounding to binary64 of a whole number of
    cents; the value is determined by the three inputs. *)
Theorem f64_total_and_deterministic (d : Z) (qm qr : Q) :
  (1 <= d <= 2 ^ 1000)%Z ->
  0 <= qm -> qm <= 2 ^ 1000 -> 0 <= qr -> qr <= 2 ^ 1000 ->
  exists v : F64.num,
    F64.calculate_reimbursement d (F64.Fin qm) (F64.Fin qr) = F64.Ok v
    /\ (v = F64.Int (d * 85)
        \/ exists (k : Z) (q : Q),
             v = F64.Float (F64.Fin q)
             /\ F64.rnd (inject_Z k / 100) = F64.Fin q)
    /\ forall v' : F64.num,
         F64.calculate_reimbursement d (F64.Fin qm) (F64.Fin qr) = F64.Ok v' ->
         v' = v.
Proof.
  intros Hd Hm0 Hm Hr0 Hr.
  destruct (f64_calculate_returns d qm qr ltac:(lia) Hm0 Hm Hr0 Hr)
    as (v & E & [I | (k & q & F & R & _)]); exists v;
    (split; [exact E|]); (split; [|intros v' E'; congruence]).
  - now left.
  - right. now exists k, q.
Qed.

(** Five days, 250 miles, receipts of 500: the result is 897.5. *)
Lemma f64_total_and_deterministic_witness :
  exists v : F64.num,
    F64.calculate_reimbursement 5 (F64.Fin 250) (F64.Fin 500) = F64.Ok v
    /\ (v = F64.Int (5 * 85)
        \/ exists (k : Z) (q : Q),
             v = F64.Float (F64.Fin q)
             /\ F64.rnd (inject_Z k / 100) = F64.Fin q)
    /\ forall v' : F64.num,
         F64.calculate_reimbursement 5 (F64.Fin 250) (F64.Fin 500) = F64.Ok v' ->
         v' = v.
Proof.
  apply (f64_total_and_deterministic 5 250 500);
    [split; [lia | apply Z.leb_le; vm_compute; reflexivity]
    | apply Qle_bool_imp_le; reflexivity
    | apply Qle_bool_imp_le; vm_compute; reflexivity
    | apply Qle_bool_imp_le; reflexivity
    | apply Qle_bool_imp_le; vm_compute; reflexivity].
Defined.

Example f64_scenario_5_250_500 :
  F64.calculate_reimbursement 5 (F64.lit 250) (F64.lit 500)
  = F64.Ok (F64.Float (F64.Fin (1795 # 2))).
Proof. vm_compute. reflexivity. Qed.

(** C2 as stated fails: three days and [1e308] miles are in its domain, and
    there the product [miles * 13] is infinite and [int] raises
    [OverflowError]; with receipts of [1e307] the product [receipts * 100]
    is infinite, its remainder is not a number and [int] raises
    [ValueError]. *)
Lemma f64_total_counterexample :
  ~ (forall (d : Z) (m r : F64.float),
       (1 <= d)%Z -> F64.fin_nonneg m -> F64.fin_nonneg r ->
       exists v : F64.num, F64.calculate_reimbursement d m r = F64.Ok v).
Proof.
  intro H.
  destruct (H 3%Z (F64.lit 1e308) (F64.lit 0)) as (v & E).
  - lia.
  - eexists. split; [vm_compute; reflexivity | vm_compute; discriminate].
  - eexists. split; [vm_compute; reflexivity | vm_compute; discriminate].
  - vm_compute in E. discriminate E.
Qed.

(** Five days, no miles, receipts of 1: the running total is the float
    below 595.395 and rounds to 595.39. *)
Example f64_scenario_5_0_1 :
  F64.calculate_reimbursement 5 (F64.lit 0) (F64.lit 1)
  = F64.Ok (F64.Float (F64.lit 595.39)).
Proof. vm_compute. reflexivity. Qed.

Example f64_overflow_miles :
  F64.calculate_reimbursement 3 (F64.lit 1e308) (F64.lit 0)
  = F64.Raise F64.OverflowError.
Proof. vm_compute. reflexivity. Qed.

Example f64_overflow_receipts :
  F64.calculate_reimbursement 1 (F64.lit 0) (F64.lit 1e307)
  = F64.Raise F64.ValueError.
Proof. vm_compute. reflexivity. Qed.

(** C7 (rounding-artifact bonus).  For a non-negative amount whose binary64
    product with 100 is finite, with [c = floor (p) mod 100] for that
    product [p], the rounding bonus is 8 when [c] is 49, 12 when [c] is 99,
    and 0 for every other cent value. *)
Theorem f64_rounding_bonus_cents (q p : Q) :
  0 <= q ->
  F64.mul (F64.Fin q) (F64.lit 100) = F64.Fin p ->
  F64.rounding_bonus (F64.Fin q) =
  F64.Ok (if (Qfloor p mod 100 =? 49)%Z then 8%Z
          else if (Qfloor p mod 100 =? 99)%Z then 12%Z
          else 0%Z).
Proof.
  intros Hq Hm.
  assert (Hp : 0 <= p).
  { rewrite f64_lit_100 in Hm. cbn [F64.mul] in Hm.
    apply (rnd_nonneg _ _ Hm). lra. }
  unfold F64.rounding_bonus. rewrite (f64_cents_product _ p Hm Hp).
  cbn [F64.bind].
  destruct (_ =? 49)%Z; [reflexivity|].
  destruct (_ =? 99)%Z; reflexivity.
Qed.

(** The float [16.49]: its product with 100 is [1648.9999999999998], the
    cent value is 48 and there is no bonus. *)
Lemma f64_rounding_bonus_cents_witness :
  0 <= 4641522365958717 # 281474976710656
  /\ F64.lit 16.49 = F64.Fin (4641522365958717 # 281474976710656)
  /\ F64.mul (F64.Fin (4641522365958717 # 281474976710656)) (F64.lit 100)
     = F64.Fin (7252378696810495 # 4398046511104)
  /\ F64.rounding_bonus (F64.Fin (4641522365958717 # 281474976710656))
     = F64.Ok 0%Z.
Proof.
  split; [discriminate|]. split; [vm_compute; reflexivity|].
  split; [vm_compute; reflexivity|].
  apply (f64_rounding_bonus_cents (4641522365958717 # 281474976710656)
           (7252378696810495 # 4398046511104));
    [discriminate | vm_compute; reflexivity].
Defined.

Example f64_rounding_bonus_values :
  F64.rounding_bonus (F64.lit 16.49) = F64.Ok 0%Z
  /\ F64.rounding_bonus (F64.lit 100.49) = F64.Ok 8%Z
  /\ F64.rounding_bonus (F64.lit 64.49) = F64.Ok 0%Z
  /\ F64.rounding_bonus (F64.lit 7.99) = F64.Ok 12%Z
  /\ F64.rounding_bonus (F64.lit 100.48) = F64.Ok 0%Z.
Proof. repeat split; vm_compute; reflexivity. Qed.

(** C10 (zero duration), as corrected.  For a trip of zero days with miles
    and receipts from 0 to [2 ^ 1000] the engine returns a value that is not
    negative.  The guard on the duration skips a division that would raise,
    the quarter hash is skipped, the floor is zero, and a negative running
    total is replaced by the [int] zero. *)
Theorem f64_zero_duration (qm qr : Q) :
  0 <= qm -> qm <= 2 ^ 1000 -> 0 <= qr -> qr <= 2 ^ 1000 ->
  F64.float_of_int 0 = F64.Ok (F64.Fin 0)
  /\ F64.truediv (F64.Fin qm) (F64.Fin 0) = F64.Raise F64.ZeroDivisionError
  /\ F64.efficiency_bonus 0 (F64.Fin qm) = F64.Ok 0%Z
  /\ F64.quarter_adjustment 0 (F64.Fin qm) (F64.Fin qr) = F64.Ok 0%Z
  /\ exists v : F64.num,
       F64.calculate_reimbursement 0 (F64.Fin qm) (F64.Fin qr) = F64.Ok v
       /\ (v = F64.Int 0
           \/ exists q : Q, v = F64.Float (F64.Fin q) /\ 0 <= q)
       /\ forall t : F64.float,
            F64.total_reimbursement 0 (F64.Fin qm) (F64.Fin qr) = F64.Ok t ->
            F64.ltb t (F64.Fin 0) = true -> v = F64.Int 0.
Proof.
  intros Hm0 Hm Hr0 Hr.
  split; [vm_compute; reflexivity|]. split; [reflexivity|].
  split; [reflexivity|]. split; [reflexivity|].
  assert (Hd : (0 <= 0 <= 2 ^ 1000)%Z)
    by (split; [lia | apply Z.leb_le; vm_compute; reflexivity]).
  destruct (f64_calculate_returns 0 qm qr Hd Hm0 Hm Hr0 Hr) as (v & E & Hv).
  exists v. split; [exact E|]. split.
  - destruct Hv as [I | (k & q & F & _ & Q0)]; [left; exact I|].
    right. exists q. split; [exact F | exact Q0].
  - intros t Et Lt. unfold F64.calculate_reimbursement in E.
    rewrite Et in E. cbn [F64.bind] in E. cbv zeta in E.
    change (inject_Z (0 * 85)) with 0 in E. rewrite Lt in E.
    injection E as <-. reflexivity.
Qed.

(** Zero days, 100 miles, receipts of 3000: the running total is -134 and
    the result is the [int] zero. *)
Lemma f64_zero_duration_witness :
  F64.float_of_int 0 = F64.Ok (F64.Fin 0)
  /\ F64.truediv (F64.Fin 100) (F64.Fin 0) = F64.Raise F64.ZeroDivisionError
  /\ F64.efficiency_bonus 0 (F64.Fin 100) = F64.Ok 0%Z
  /\ F64.quarter_adjustment 0 (F64.Fin 100) (F64.Fin 3000) = F64.Ok 0%Z
  /\ exists v : F64.num,
       F64.calculate_reimbursement 0 (F64.Fin 100) (F64.Fin 3000) = F64.Ok v
       /\ (v = F64.Int 0
           \/ exists q : Q, v = F64.Float (F64.Fin q) /\ 0 <= q)
       /\ forall t : F64.float,
            F64.total_reimbursement 0 (F64.Fin 100) (F64.Fin 3000) = F64.Ok t ->
            F64.ltb t (F64.Fin 0) = true -> v = F64.Int 0.
Proof.
  apply (f64_zero_duration 100 3000);
    [ apply Qle_bool_imp_le; reflexivity
    | apply Qle_bool_imp_le; vm_compute; reflexivity
    | apply Qle_bool_imp_le; reflexivity
    | apply Qle_bool_imp_le; vm_compute; reflexivity].
Defined.

Example f64_zero_duration_negative_total :
  F64.total_reimbursement 0 (F64.lit 100) (F64.lit 3000)
  = F64.Ok (F64.Fin (-134))
  /\ F64.calculate_reimbursement 0 (F64.lit 100) (F64.lit 3000)
     = F64.Ok (F64.Int 0).
Proof. split; vm_compute; reflexivity. Qed.

(** C10 as stated fails: with zero days and receipts of [1e307] the product
    [receipts * 100] is infinite, its remainder is not a number and [int]
    raises [ValueError]. *)
Lemma f64_zero_duration_counterexample :
  ~ (forall m r : F64.float,
       F64.fin_nonneg m -> F64.fin_nonneg r ->
       exists v : F64.num, F64.calculate_reimbursement 0 m r = F64.Ok v).
Proof.
  intro H.
  destruct (H (F64.lit 0) (F64.lit 1e307)) as (v & E).
  - eexists. split; [vm_compute; reflexivity | vm_compute; discriminate].
  - eexists. split; [vm_compute; reflexivity | vm_compute; discriminate].
  - vm_compute in E. discriminate E.
Qed.

Example f64_zero_duration_overflow :
  F64.calculate_reimbursement 0 (F64.lit 0) (F64.lit 1e307)
  = F64.Raise F64.ValueError.
Proof. vm_compute. reflexivity. Qed.
